(** * DesktopOptions.cpp: persisted preferences of the desktop shell

    A shallow embedding of [rstudio::desktop::Options]
    (src/cpp/desktop/DesktopOptions.cpp).  The settings store is a finite
    map from keys to variants, the members of the [Options] singleton are
    a record, and the process-wide state the file touches (the global
    [scratchPath], the desktop frame, the process environment and the
    filesystem) is a second record around it.  Every member function is
    a function on these records; the platform branches of the
    preprocessor are branches on a [Platform] value. *)

From Stdlib Require Import ZArith String Ascii PrimFloat DecimalString Lia.
From stdpp Require Import gmap strings list fin_maps.

Open Scope string_scope.
Open Scope Z_scope.

(** ** Toolkit values *)

(** [QString] and [std::string] are both byte strings here; [double] is a
    binary64 float that the code only stores and returns. *)
Abbreviation QString := string (only parsing).
Abbreviation double := float (only parsing).

Definition QString_isEmpty (s : QString) : bool :=
  match s with
  | EmptyString => true
  | String _ _ => false
  end.

(** The double-quote character (code 34). *)
Definition dquote : QString := String "034" EmptyString.

(** The template of a quote, the place marker %1 and a quote, with
    [QString::arg] applied: the place marker is replaced by [s]. *)
Definition QString_quoted_arg (s : QString) : QString := dquote +:+ s +:+ dquote.

(** [QString::number(int)]: the decimal representation. *)
Definition QString_number (n : Z) : QString := NilZero.string_of_int (Z.to_int n).

(** [QString::toUtf8().constData()] read as a C string: the bytes up to
    the first NUL. *)
Fixpoint constData (s : QString) : string :=
  match s with
  | EmptyString => EmptyString
  | String c rest =>
      if Ascii.eqb c "000" then EmptyString else String c (constData rest)
  end.

Record QSize := mkQSize { width : Z; height : Z }.

Record QRect := mkQRect { rect_x : Z; rect_y : Z; rect_width : Z; rect_height : Z }.

(** [QSize::boundedTo]: the component-wise minimum. *)
Definition QSize_boundedTo (s other : QSize) : QSize :=
  mkQSize (Z.min (width s) (width other)) (Z.min (height s) (height other)).

(** The null rectangle [QRect()]. *)
Definition QRect_null : QRect := mkQRect 0 0 0 0.

(** [QVariant], with the types this file stores or reads. *)
Inductive QVariant : Type :=
  | Invalid
  | VBool (b : bool)
  | VDouble (d : double)
  | VString (s : QString)
  | VStringList (l : list QString)
  | VRect (r : QRect).

(** A top-level window, as far as this file uses it. *)
Record QMainWindow := mkQMainWindow { geometry : QRect }.

Definition QMainWindow_setGeometry (r : QRect) (win : QMainWindow) : QMainWindow :=
  mkQMainWindow r.

(** [QWidget::resize] keeps the position. *)
Definition QMainWindow_resize (s : QSize) (win : QMainWindow) : QMainWindow :=
  mkQMainWindow
    (mkQRect (rect_x (geometry win)) (rect_y (geometry win)) (width s) (height s)).

(** ** The settings store *)

Definition QSettings_contains (key : QString) (s : gmap string QVariant) : bool :=
  match s !! key with
  | Some _ => true
  | None => false
  end.

(** [QSettings::value(key, defaultValue)]; the one-argument form has the
    invalid variant as its default. *)
Definition QSettings_value_or (key : QString) (d : QVariant) (s : gmap string QVariant)
  : QVariant :=
  default d (s !! key).

Definition QSettings_value (key : QString) (s : gmap string QVariant) : QVariant :=
  QSettings_value_or key Invalid s.

Definition QSettings_setValue (key : QString) (v : QVariant) (s : gmap string QVariant)
  : gmap string QVariant :=
  <[key := v]> s.

(** [key'] is [key] or lies in the group [key]. *)
Definition in_group (key key' : QString) : bool :=
  String.eqb key key' || String.prefix (key +:+ "/") key'.

(** [QSettings::remove(key)] removes the setting [key] and any
    sub-settings of [key]. *)
Definition QSettings_remove (key : QString) (s : gmap string QVariant)
  : gmap string QVariant :=
  filter (λ kv, in_group key kv.1 = false) s.

(** ** The filesystem and [core::FilePath] *)

(** The paths that exist, and whether a directory can be created at a
    path (permissions, free space, a read-only volume). *)
Record FileSystem := mkFileSystem {
  entries : gset string;
  creatable : string → bool
}.

Abbreviation FilePath := string (only parsing).

(** Modelled from the spec: [core::FilePath] (core/FilePath.cpp) is not
    under src/.  A path is its text; [empty] is the empty text, [exists]
    looks the path up, [complete] and [childPath] join with a separator,
    [filename] is the last component. *)
Definition FilePath_empty (p : FilePath) : bool := QString_isEmpty p.

Definition FilePath_exists (fs : FileSystem) (p : FilePath) : bool :=
  negb (FilePath_empty p) && bool_decide (p ∈ entries fs).

Definition FilePath_complete (p : FilePath) (child : string) : FilePath :=
  p +:+ "/" +:+ child.

Definition FilePath_childPath (p : FilePath) (child : string) : FilePath :=
  FilePath_complete p child.

Fixpoint filename_from (acc : string) (p : string) : string :=
  match p with
  | EmptyString => acc
  | String c rest =>
      if Ascii.eqb c "/" then filename_from EmptyString rest
      else filename_from (acc +:+ String c EmptyString) rest
  end.

Definition FilePath_filename (p : FilePath) : string := filename_from EmptyString p.

(** [q] is [p] or lies below [p]. *)
Definition within (p q : FilePath) : bool :=
  String.eqb p q || String.prefix (p +:+ "/") q.

(** Modelled from the spec: [FilePath::ensureDirectory] creates the
    directory when the path does not exist and reports whether that
    failed; an existing path is a success.  The result is the error flag
    and the filesystem afterwards. *)
Definition FilePath_ensureDirectory (fs : FileSystem) (p : FilePath)
  : bool * FileSystem :=
  if FilePath_exists fs p then (false, fs)
  else if creatable fs p
       then (false, mkFileSystem ({[p]} ∪ entries fs) (creatable fs))
       else (true, fs).

(** Modelled from the spec: [FilePath::removeIfExists] removes the path
    and everything below it when it exists. *)
Definition FilePath_removeIfExists (fs : FileSystem) (p : FilePath) : FileSystem :=
  if FilePath_exists fs p
  then mkFileSystem (filter (λ q, within p q = false) (entries fs)) (creatable fs)
  else fs.

(** ** The host: what the build and the toolkit decide *)

(** [_WIN32]; [__APPLE__] and [Q_OS_MAC]; [Q_OS_LINUX]; any other
    target. *)
Inductive Platform : Type := Windows | MacOS | Linux | OtherUnix.

(** What the file takes from outside itself: the build target, the
    toolkit's conversions of a variant to a type other than its own, the
    font database, the desktop, the command line and [core::system].
    [abs_INT_MIN] is what the build makes of [std::abs(INT_MIN)], which
    C++ leaves undefined: [INT_MIN] again where the negation wraps
    around, 2147483648 where the compiler computes on the assumption
    that an absolute value is not negative. *)
Record Host := mkHost {
  platform : Platform;
  kRunDiagnosticsOption : string;
  qt_toBool : QVariant → bool;
  qt_toDouble : QVariant → double;
  qt_toString : QVariant → QString;
  qt_toStringList : QVariant → list QString;
  qt_toRect : QVariant → QRect;
  QFont_exactMatch : QString → bool;
  isFixedWidthFont : QString → bool;
  availableGeometry : QRect;
  argv0 : string;
  system_executablePath : string → option FilePath;
  system_installPath : string → string → option FilePath;
  abs_INT_MIN : Z
}.

(** ** The state *)

(** The desktop frame's [DesktopInfo] singleton. *)
Record DesktopInfo := mkDesktopInfo { frameZoomLevel : double }.

(** Modelled from the spec: [DesktopInfo::setZoomLevel] (DesktopInfo.cpp)
    is not under src/; it sets the zoom level of the desktop frame. *)
Definition DesktopInfo_setZoomLevel (z : double) (d : DesktopInfo) : DesktopInfo :=
  mkDesktopInfo z.

(** The members of [Options]. *)
Record Options := mkOptions {
  settings_ : gmap string QVariant;
  runDiagnostics_ : bool;
  portNumber_ : QString;
  localPeer_ : string;
  scriptsPath_ : FilePath;
  executablePath_ : FilePath;
  supportingFilePath_ : FilePath;
  resourcesPath_ : FilePath
}.

(** The [Options] singleton with the process state around it. *)
Record World := mkWorld {
  options : Options;
  scratchPath : QString;
  desktopInfo : DesktopInfo;
  environment : gmap string string;
  filesystem : FileSystem
}.

Definition set_settings (s : gmap string QVariant) (o : Options) : Options :=
  mkOptions s (runDiagnostics_ o) (portNumber_ o) (localPeer_ o) (scriptsPath_ o)
            (executablePath_ o) (supportingFilePath_ o) (resourcesPath_ o).

Definition set_runDiagnostics (b : bool) (o : Options) : Options :=
  mkOptions (settings_ o) b (portNumber_ o) (localPeer_ o) (scriptsPath_ o)
            (executablePath_ o) (supportingFilePath_ o) (resourcesPath_ o).

Definition set_portNumber (p : QString) (o : Options) : Options :=
  mkOptions (settings_ o) (runDiagnostics_ o) p (localPeer_ o) (scriptsPath_ o)
            (executablePath_ o) (supportingFilePath_ o) (resourcesPath_ o).

Definition set_localPeer (p : string) (o : Options) : Options :=
  mkOptions (settings_ o) (runDiagnostics_ o) (portNumber_ o) p (scriptsPath_ o)
            (executablePath_ o) (supportingFilePath_ o) (resourcesPath_ o).

Definition set_executablePath (p : FilePath) (o : Options) : Options :=
  mkOptions (settings_ o) (runDiagnostics_ o) (portNumber_ o) (localPeer_ o)
            (scriptsPath_ o) p (supportingFilePath_ o) (resourcesPath_ o).

Definition set_supportingFilePath (p : FilePath) (o : Options) : Options :=
  mkOptions (settings_ o) (runDiagnostics_ o) (portNumber_ o) (localPeer_ o)
            (scriptsPath_ o) (executablePath_ o) p (resourcesPath_ o).

Definition set_resourcesPath (p : FilePath) (o : Options) : Options :=
  mkOptions (settings_ o) (runDiagnostics_ o) (portNumber_ o) (localPeer_ o)
            (scriptsPath_ o) (executablePath_ o) (supportingFilePath_ o) p.

Definition with_options (o : Options) (w : World) : World :=
  mkWorld o (scratchPath w) (desktopInfo w) (environment w) (filesystem w).

Definition with_desktopInfo (d : DesktopInfo) (w : World) : World :=
  mkWorld (options w) (scratchPath w) d (environment w) (filesystem w).

Definition with_environment (e : gmap string string) (w : World) : World :=
  mkWorld (options w) (scratchPath w) (desktopInfo w) e (filesystem w).

Definition with_filesystem (fs : FileSystem) (w : World) : World :=
  mkWorld (options w) (scratchPath w) (desktopInfo w) (environment w) fs.

(** ** Machine integers *)

Definition INT_MIN : Z := -2147483648.
Definition INT_MAX : Z := 2147483647.

(** [std::abs(int)] of an [int].  The negation of [INT_MIN] is not
    representable and the call is undefined there: the source does not
    say what it yields, the build does. *)
Definition std_abs (host : Host) (x : Z) : Z :=
  if x <? 0 then (if x =? INT_MIN then abs_INT_MIN host else - x) else x.

(** [a % b] on [int]: the remainder of the division that truncates. *)
Definition int_rem (a b : Z) : Z := Z.rem a b.

(** ** The member functions of [Options] *)

Section Members.

Context (host : Host).

(** A variant converts to its own type by projection and the invalid
    variant to the type's default; every other conversion is the
    toolkit's. *)
Definition QVariant_toBool (v : QVariant) : bool :=
  match v with
  | VBool b => b
  | Invalid => false
  | _ => qt_toBool host v
  end.

Definition QVariant_toDouble (v : QVariant) : double :=
  match v with
  | VDouble d => d
  | Invalid => 0%float
  | _ => qt_toDouble host v
  end.

Definition QVariant_toString (v : QVariant) : QString :=
  match v with
  | VString s => s
  | Invalid => EmptyString
  | _ => qt_toString host v
  end.

Definition QVariant_toStringList (v : QVariant) : list QString :=
  match v with
  | VStringList l => l
  | Invalid => []
  | _ => qt_toStringList host v
  end.

Definition QVariant_toRect (v : QVariant) : QRect :=
  match v with
  | VRect r => r
  | Invalid => QRect_null
  | _ => qt_toRect host v
  end.

Definition zoomLevel (o : Options) : double :=
  let zoom := QSettings_value_or "view.zoomLevel" (VDouble 1%float) (settings_ o) in
  QVariant_toDouble zoom.

Definition setZoomLevel (zoomLevel : double) (w : World) : World :=
  let w := with_desktopInfo (DesktopInfo_setZoomLevel zoomLevel (desktopInfo w)) w in
  with_options
    (set_settings
       (QSettings_setValue "view.zoomLevel" (VDouble zoomLevel) (settings_ (options w)))
       (options w))
    w.

(** The loop of [initFromCommandLine] over the arguments after the
    program name. *)
Fixpoint scanArguments (arguments : list QString) (o : Options) : Options :=
  match arguments with
  | [] => o
  | arg :: rest =>
      let o := if String.eqb arg (kRunDiagnosticsOption host)
               then set_runDiagnostics true o else o in
      scanArguments rest o
  end.

Definition initFromCommandLine (arguments : list QString) (w : World) : World :=
  let w := with_options (scanArguments (skipn 1 arguments) (options w)) w in
  with_desktopInfo
    (DesktopInfo_setZoomLevel (zoomLevel (options w)) (desktopInfo w)) w.

Definition restoreMainWindowBounds (o : Options) (win : QMainWindow) : QMainWindow :=
  let key := "mainwindow/bounds" in
  if QSettings_contains key (settings_ o)
  then
    let bounds := QVariant_toRect (QSettings_value key (settings_ o)) in
    QMainWindow_setGeometry bounds win
  else
    let size :=
      QSize_boundedTo (mkQSize 1200 900)
        (mkQSize (rect_width (availableGeometry host))
                 (rect_height (availableGeometry host))) in
    if (800 <? width size) && (500 <? height size)
    then QMainWindow_resize size win
    else win.

Definition saveMainWindowBounds (win : QMainWindow) (o : Options) : Options :=
  let bounds := VRect (geometry win) in
  set_settings (QSettings_setValue "mainwindow/bounds" bounds (settings_ o)) o.

(** [random] is the value that [core::random::uniformRandomInteger<int>()]
    returns in this call, an [int]. *)
Definition portNumber (random : Z) (w : World) : QString * World :=
  let o := options w in
  if (String.length (portNumber_ o) =? 0)%nat
  then
    let base := std_abs host random in
    let o := set_portNumber (QString_number (int_rem base 40000 + 8080)) o in
    let w := with_options o w in
    let w :=
      match platform host with
      | Windows =>
          let localPeer := "\\.\pipe\" +:+ portNumber_ o +:+ "-rsession" in
          let o := set_localPeer (constData localPeer) o in
          with_environment
            (<["RS_LOCAL_PEER" := localPeer_ o]> (environment w))
            (with_options o w)
      | _ => w
      end in
    (portNumber_ (options w), w)
  else (portNumber_ o, w).

Definition newPortNumber (random : Z) (w : World) : QString * World :=
  portNumber random (with_options (set_portNumber EmptyString (options w)) w).

Definition localPeer (o : Options) : string := localPeer_ o.

Definition desktopRenderingEngine (o : Options) : QString :=
  QVariant_toString (QSettings_value "desktop.renderingEngine" (settings_ o)).

Definition setDesktopRenderingEngine (engine : QString) (o : Options) : Options :=
  set_settings
    (QSettings_setValue "desktop.renderingEngine" (VString engine) (settings_ o)) o.

Fixpoint findFirstMatchingFont (fonts : list QString) (defaultFont : QString)
         (fixedWidthOnly : bool) : QString :=
  match fonts with
  | [] => defaultFont
  | font :: rest =>
      if QFont_exactMatch host font
      then if negb fixedWidthOnly || isFixedWidthFont host font
           then font
           else findFirstMatchingFont rest defaultFont fixedWidthOnly
      else findFirstMatchingFont rest defaultFont fixedWidthOnly
  end.

Definition proportionalFontList : list QString :=
  match platform host with
  | Windows =>
      ["Segoe UI"; "Verdana"; "Lucida Sans"; "DejaVu Sans"; "Lucida Grande";
       "Helvetica"]
  | MacOS =>
      ["Lucida Grande"; "Lucida Sans"; "DejaVu Sans"; "Segoe UI"; "Verdana";
       "Helvetica"]
  | _ =>
      ["Lucida Sans"; "DejaVu Sans"; "Lucida Grande"; "Segoe UI"; "Verdana";
       "Helvetica"]
  end.

(** The function-local static [detectedFont] is never assigned: it
    keeps the empty string it starts with. *)
Definition proportionalFont (o : Options) : QString :=
  let detectedFont : QString := EmptyString in
  let font := QVariant_toString (QSettings_value "font.proportional" (settings_ o)) in
  if negb (QString_isEmpty font) then font
  else if negb (QString_isEmpty detectedFont) then detectedFont
  else
    let fontList := proportionalFontList in
    let sansSerif := "sans-serif" in
    let selectedFont := findFirstMatchingFont fontList sansSerif false in
    if String.eqb selectedFont sansSerif then sansSerif
    else QString_quoted_arg selectedFont.

Definition setFixedWidthFont (font : QString) (o : Options) : Options :=
  if QString_isEmpty font
  then set_settings (QSettings_remove "font.fixedWidth" (settings_ o)) o
  else set_settings
         (QSettings_setValue "font.fixedWidth" (VString font) (settings_ o)) o.

Definition fixedWidthFontList : list QString :=
  match platform host with
  | MacOS => ["Monaco"]
  | Linux => ["Ubuntu Mono"; "Droid Sans Mono"; "DejaVu Sans Mono"; "Monospace"]
  | _ => ["Lucida Console"; "Consolas"]
  end.

Definition fixedWidthFont (o : Options) : QString :=
  let detectedFont : QString := EmptyString in
  let font := QVariant_toString (QSettings_value "font.fixedWidth" (settings_ o)) in
  if negb (QString_isEmpty font) then dquote +:+ font +:+ dquote
  else if negb (QString_isEmpty detectedFont) then detectedFont
  else
    let fontList := fixedWidthFontList in
    let monospace := "monospace" in
    let matchingFont := findFirstMatchingFont fontList monospace true in
    if String.eqb matchingFont monospace then monospace
    else QString_quoted_arg matchingFont.

Definition enableAccessibility (o : Options) : bool :=
  let accessibility :=
    QSettings_value_or "view.accessibility" (VBool false) (settings_ o) in
  QVariant_toBool accessibility.

Definition setEnableAccessibility (enable : bool) (o : Options) : Options :=
  set_settings (QSettings_setValue "view.accessibility" (VBool enable) (settings_ o)) o.

Definition clipboardMonitoring (o : Options) : bool :=
  let monitoring :=
    QSettings_value_or "clipboard.monitoring" (VBool true) (settings_ o) in
  QVariant_toBool monitoring.

Definition setClipboardMonitoring (monitoring : bool) (o : Options) : Options :=
  set_settings
    (QSettings_setValue "clipboard.monitoring" (VBool monitoring) (settings_ o)) o.

Definition ignoreGpuBlacklist (o : Options) : bool :=
  let ignore :=
    QSettings_value_or "general.ignoreGpuBlacklist" (VBool false) (settings_ o) in
  QVariant_toBool ignore.

Definition setIgnoreGpuBlacklist (ignore : bool) (o : Options) : Options :=
  set_settings
    (QSettings_setValue "general.ignoreGpuBlacklist" (VBool ignore) (settings_ o)) o.

Definition disableGpuDriverBugWorkarounds (o : Options) : bool :=
  let disable :=
    QSettings_value_or "general.disableGpuDriverBugWorkarounds" (VBool false)
      (settings_ o) in
  QVariant_toBool disable.

Definition setDisableGpuDriverBugWorkarounds (disable : bool) (o : Options) : Options :=
  set_settings
    (QSettings_setValue "general.disableGpuDriverBugWorkarounds" (VBool disable)
       (settings_ o)) o.

(** [rBinDir] and [setRBinDir] are compiled on Windows only.  A null
    string and an empty one are the same string here. *)
Definition rBinDir (o : Options) : QString :=
  QVariant_toString (QSettings_value "RBinDir" (settings_ o)).

Definition setRBinDir (path : QString) (o : Options) : Options :=
  set_settings (QSettings_setValue "RBinDir" (VString path) (settings_ o)) o.

Definition ignoredUpdateVersions (o : Options) : list QString :=
  QVariant_toStringList
    (QSettings_value_or "ignoredUpdateVersions" (VStringList []) (settings_ o)).

Definition setIgnoredUpdateVersions (ignoredVersions : list QString) (o : Options)
  : Options :=
  set_settings
    (QSettings_setValue "ignoredUpdateVersions" (VStringList ignoredVersions)
       (settings_ o)) o.

End Members.

(** ** Paths *)

Definition set_scriptsPath (p : FilePath) (o : Options) : Options :=
  mkOptions (settings_ o) (runDiagnostics_ o) (portNumber_ o) (localPeer_ o) p
            (executablePath_ o) (supportingFilePath_ o) (resourcesPath_ o).

Section Operations.

Context (host : Host).

Definition scriptsPath (o : Options) : FilePath := scriptsPath_ o.

Definition setScriptsPath (scriptsPath : FilePath) (o : Options) : Options :=
  set_scriptsPath scriptsPath o.

(** [core::system::executablePath] fills the member on success and
    leaves it alone on an error, which is only logged. *)
Definition executablePath (o : Options) : FilePath * Options :=
  let o :=
    if FilePath_empty (executablePath_ o)
    then match system_executablePath host (argv0 host) with
         | Some p => set_executablePath p o
         | None => o
         end
    else o in
  (executablePath_ o, o).

Definition supportingFilePath (fs : FileSystem) (o : Options) : FilePath * Options :=
  let o :=
    if FilePath_empty (supportingFilePath_ o)
    then
      let o := match system_installPath host ".." (argv0 host) with
               | Some p => set_supportingFilePath p o
               | None => o
               end in
      match platform host with
      | MacOS =>
          if FilePath_exists fs (FilePath_complete (supportingFilePath_ o) "Info.plist")
          then set_supportingFilePath
                 (FilePath_complete (supportingFilePath_ o) "Resources") o
          else o
      | _ => o
      end
    else o in
  (supportingFilePath_ o, o).

Definition resourcesPath (fs : FileSystem) (o : Options) : FilePath * Options :=
  let o :=
    if FilePath_empty (resourcesPath_ o)
    then
      if FilePath_exists fs (FilePath_complete (scriptsPath o) "resources")
      then set_resourcesPath (FilePath_complete (scriptsPath o) "resources") o
      else
        let '(supporting, o) := supportingFilePath fs o in
        set_resourcesPath (FilePath_complete supporting "resources") o
    else o in
  (resourcesPath_ o, o).

Definition wwwDocsPath (fs : FileSystem) (o : Options) : FilePath * Options :=
  let '(supportingFilePath, o) := supportingFilePath fs o in
  let wwwDocsPath := FilePath_complete supportingFilePath "www/docs" in
  let wwwDocsPath :=
    if negb (FilePath_exists fs wwwDocsPath)
    then FilePath_complete supportingFilePath "../gwt/www/docs"
    else wwwDocsPath in
  let wwwDocsPath :=
    match platform host with
    | MacOS =>
        if negb (FilePath_exists fs wwwDocsPath)
        then FilePath_complete supportingFilePath "../../../../../gwt/www/docs"
        else wwwDocsPath
    | _ => wwwDocsPath
    end in
  (wwwDocsPath, o).

(** [urlopenerPath] and [rsinversePath] are compiled on Windows only. *)
Definition urlopenerPath (o : Options) : FilePath :=
  let parentDir := scriptsPath o in
  let parentDir :=
    if String.eqb (FilePath_filename parentDir) "desktop"
    then FilePath_complete parentDir "urlopener"
    else parentDir in
  FilePath_complete parentDir "urlopener.exe".

Definition rsinversePath (o : Options) : FilePath :=
  let parentDir := scriptsPath o in
  let parentDir :=
    if String.eqb (FilePath_filename parentDir) "desktop"
    then FilePath_complete parentDir "synctex/rsinverse"
    else parentDir in
  FilePath_complete parentDir "rsinverse.exe".

(** The [FilePath] built from the global [scratchPath]. *)
Definition scratchDir (w : World) : FilePath := constData (scratchPath w).

Definition scratchTempDir (defaultPath : FilePath) (w : World) : FilePath * World :=
  let dir := scratchDir w in
  if negb (FilePath_empty dir) && FilePath_exists (filesystem w) dir
  then
    let dir := FilePath_childPath dir "tmp" in
    let '(error, fs) := FilePath_ensureDirectory (filesystem w) dir in
    let w := with_filesystem fs w in
    if negb error then (dir, w) else (defaultPath, w)
  else (defaultPath, w).

Definition cleanUpScratchTempDir (w : World) : World :=
  let '(temp, w) := scratchTempDir EmptyString w in
  if negb (FilePath_empty temp)
  then with_filesystem (FilePath_removeIfExists (filesystem w) temp) w
  else w.

(** ** Every operation, as one step on the world *)

Inductive Op : Type :=
  | OpInitFromCommandLine (arguments : list QString)
  | OpRestoreMainWindowBounds (win : QMainWindow)
  | OpSaveMainWindowBounds (win : QMainWindow)
  | OpPortNumber
  | OpNewPortNumber
  | OpLocalPeer
  | OpDesktopRenderingEngine
  | OpSetDesktopRenderingEngine (engine : QString)
  | OpProportionalFont
  | OpSetFixedWidthFont (font : QString)
  | OpFixedWidthFont
  | OpZoomLevel
  | OpSetZoomLevel (zoomLevel : double)
  | OpEnableAccessibility
  | OpSetEnableAccessibility (enable : bool)
  | OpClipboardMonitoring
  | OpSetClipboardMonitoring (monitoring : bool)
  | OpIgnoreGpuBlacklist
  | OpSetIgnoreGpuBlacklist (ignore : bool)
  | OpDisableGpuDriverBugWorkarounds
  | OpSetDisableGpuDriverBugWorkarounds (disable : bool)
  | OpRBinDir
  | OpSetRBinDir (path : QString)
  | OpScriptsPath
  | OpSetScriptsPath (scriptsPath : FilePath)
  | OpExecutablePath
  | OpSupportingFilePath
  | OpResourcesPath
  | OpWwwDocsPath
  | OpUrlopenerPath
  | OpRsinversePath
  | OpIgnoredUpdateVersions
  | OpSetIgnoredUpdateVersions (ignoredVersions : list QString)
  | OpScratchTempDir (defaultPath : FilePath)
  | OpCleanUpScratchTempDir.

Inductive Result : Type :=
  | RVoid
  | RBool (b : bool)
  | RDouble (d : double)
  | RString (s : string)
  | RStringList (l : list QString)
  | RWindow (win : QMainWindow).

Definition getter (f : Options → Result) (w : World) : Result * World :=
  (f (options w), w).

Definition setter (f : Options → Options) (w : World) : Result * World :=
  (RVoid, with_options (f (options w)) w).

Definition cached (f : Options → FilePath * Options) (w : World) : Result * World :=
  let '(p, o) := f (options w) in (RString p, with_options o w).

(** [random] is what the random source yields, should the operation
    draw from it. *)
Definition run (op : Op) (random : Z) (w : World) : Result * World :=
  match op with
  | OpInitFromCommandLine arguments => (RVoid, initFromCommandLine host arguments w)
  | OpRestoreMainWindowBounds win =>
      getter (λ o, RWindow (restoreMainWindowBounds host o win)) w
  | OpSaveMainWindowBounds win => setter (saveMainWindowBounds win) w
  | OpPortNumber => let '(p, w) := portNumber host random w in (RString p, w)
  | OpNewPortNumber => let '(p, w) := newPortNumber host random w in (RString p, w)
  | OpLocalPeer => getter (λ o, RString (localPeer o)) w
  | OpDesktopRenderingEngine => getter (λ o, RString (desktopRenderingEngine host o)) w
  | OpSetDesktopRenderingEngine engine => setter (setDesktopRenderingEngine engine) w
  | OpProportionalFont => getter (λ o, RString (proportionalFont host o)) w
  | OpSetFixedWidthFont font => setter (setFixedWidthFont font) w
  | OpFixedWidthFont => getter (λ o, RString (fixedWidthFont host o)) w
  | OpZoomLevel => getter (λ o, RDouble (zoomLevel host o)) w
  | OpSetZoomLevel z => (RVoid, setZoomLevel z w)
  | OpEnableAccessibility => getter (λ o, RBool (enableAccessibility host o)) w
  | OpSetEnableAccessibility enable => setter (setEnableAccessibility enable) w
  | OpClipboardMonitoring => getter (λ o, RBool (clipboardMonitoring host o)) w
  | OpSetClipboardMonitoring monitoring => setter (setClipboardMonitoring monitoring) w
  | OpIgnoreGpuBlacklist => getter (λ o, RBool (ignoreGpuBlacklist host o)) w
  | OpSetIgnoreGpuBlacklist ignore => setter (setIgnoreGpuBlacklist ignore) w
  | OpDisableGpuDriverBugWorkarounds =>
      getter (λ o, RBool (disableGpuDriverBugWorkarounds host o)) w
  | OpSetDisableGpuDriverBugWorkarounds disable =>
      setter (setDisableGpuDriverBugWorkarounds disable) w
  | OpRBinDir => getter (λ o, RString (rBinDir host o)) w
  | OpSetRBinDir path => setter (setRBinDir path) w
  | OpScriptsPath => getter (λ o, RString (scriptsPath o)) w
  | OpSetScriptsPath p => setter (setScriptsPath p) w
  | OpExecutablePath => cached executablePath w
  | OpSupportingFilePath => cached (supportingFilePath (filesystem w)) w
  | OpResourcesPath => cached (resourcesPath (filesystem w)) w
  | OpWwwDocsPath => cached (wwwDocsPath (filesystem w)) w
  | OpUrlopenerPath => getter (λ o, RString (urlopenerPath o)) w
  | OpRsinversePath => getter (λ o, RString (rsinversePath o)) w
  | OpIgnoredUpdateVersions =>
      getter (λ o, RStringList (ignoredUpdateVersions host o)) w
  | OpSetIgnoredUpdateVersions l => setter (setIgnoredUpdateVersions l) w
  | OpScratchTempDir defaultPath =>
      let '(p, w) := scratchTempDir defaultPath w in (RString p, w)
  | OpCleanUpScratchTempDir => (RVoid, cleanUpScratchTempDir w)
  end.

(** Whether an operation draws from the random source in a state:
    [portNumber] with no port number cached, and [newPortNumber], which
    clears the cache first. *)
Definition draws_random (op : Op) (w : World) : bool :=
  match op with
  | OpPortNumber => (String.length (portNumber_ (options w)) =? 0)%nat
  | OpNewPortNumber => true
  | _ => false
  end.

(** The setters of the settings store, with the key each one names. *)
Inductive Setter : Type :=
  | SaveMainWindowBounds (win : QMainWindow)
  | SetDesktopRenderingEngine (engine : QString)
  | SetFixedWidthFont (font : QString)
  | SetZoomLevel (zoomLevel : double)
  | SetEnableAccessibility (enable : bool)
  | SetClipboardMonitoring (monitoring : bool)
  | SetIgnoreGpuBlacklist (ignore : bool)
  | SetDisableGpuDriverBugWorkarounds (disable : bool)
  | SetRBinDir (path : QString)
  | SetIgnoredUpdateVersions (ignoredVersions : list QString).

Definition setter_key (s : Setter) : QString :=
  match s with
  | SaveMainWindowBounds _ => "mainwindow/bounds"
  | SetDesktopRenderingEngine _ => "desktop.renderingEngine"
  | SetFixedWidthFont _ => "font.fixedWidth"
  | SetZoomLevel _ => "view.zoomLevel"
  | SetEnableAccessibility _ => "view.accessibility"
  | SetClipboardMonitoring _ => "clipboard.monitoring"
  | SetIgnoreGpuBlacklist _ => "general.ignoreGpuBlacklist"
  | SetDisableGpuDriverBugWorkarounds _ => "general.disableGpuDriverBugWorkarounds"
  | SetRBinDir _ => "RBinDir"
  | SetIgnoredUpdateVersions _ => "ignoredUpdateVersions"
  end.

Definition setter_op (s : Setter) : Op :=
  match s with
  | SaveMainWindowBounds win => OpSaveMainWindowBounds win
  | SetDesktopRenderingEngine engine => OpSetDesktopRenderingEngine engine
  | SetFixedWidthFont font => OpSetFixedWidthFont font
  | SetZoomLevel z => OpSetZoomLevel z
  | SetEnableAccessibility enable => OpSetEnableAccessibility enable
  | SetClipboardMonitoring monitoring => OpSetClipboardMonitoring monitoring
  | SetIgnoreGpuBlacklist ignore => OpSetIgnoreGpuBlacklist ignore
  | SetDisableGpuDriverBugWorkarounds disable =>
      OpSetDisableGpuDriverBugWorkarounds disable
  | SetRBinDir path => OpSetRBinDir path
  | SetIgnoredUpdateVersions l => OpSetIgnoredUpdateVersions l
  end.

(** The settings store after a setter has run. *)
Definition settings_after (s : Setter) (w : World) : gmap string QVariant :=
  settings_ (options (run (setter_op s) 0 w).2).

End Operations.

(** ** Concrete hosts and states *)

(** A Linux host with the given fonts installed, on a 1920x1080 desktop;
    foreign conversions give the type's default, and the negation of
    [INT_MIN] wraps around. *)
Definition host_linux (installed : list QString) : Host :=
  mkHost Linux "--run-diagnostics"
         (λ _, false) (λ _, 0%float) (λ _, EmptyString) (λ _, []) (λ _, QRect_null)
         (λ font, existsb (String.eqb font) installed) (λ _, true)
         (mkQRect 0 0 1920 1080) "rstudio" (λ _, None) (λ _ _, None) INT_MIN.

Definition options_with (s : gmap string QVariant) : Options :=
  mkOptions s false EmptyString EmptyString EmptyString EmptyString EmptyString
            EmptyString.

Definition world_with (s : gmap string QVariant) (scratch : QString)
           (paths : list string) (creatable : string → bool) : World :=
  mkWorld (options_with s) scratch (mkDesktopInfo 1%float) ∅
          (mkFileSystem (list_to_set paths) creatable).

(** A fresh installation: nothing stored, no scratch path set. *)
Definition world_fresh : World := world_with ∅ EmptyString [] (λ _, true).

(** A store in which every scalar preference has been saved. *)
Definition settings_saved : gmap string QVariant :=
  <["view.zoomLevel" := VDouble 2%float]>
    (<["view.accessibility" := VBool true]>
       (<["clipboard.monitoring" := VBool false]> ∅)).

(** A store that holds a sub-setting of the fixed-width font key. *)
Definition settings_sub : gmap string QVariant :=
  <["font.fixedWidth/size" := VDouble 12%float]> ∅.

(** A Linux host of an optimised build, in which the absolute value of
    [INT_MIN] comes out as 2147483648. *)
Definition host_optimised : Host :=
  mkHost Linux "--run-diagnostics"
         (λ _, false) (λ _, 0%float) (λ _, EmptyString) (λ _, []) (λ _, QRect_null)
         (λ _, false) (λ _, true)
         (mkQRect 0 0 1920 1080) "rstudio" (λ _, None) (λ _ _, None) 2147483648.

(** A Windows host and a macOS host, built like [host_linux]. *)
Definition host_windows (installed : list QString) : Host :=
  mkHost Windows "--run-diagnostics"
         (λ _, false) (λ _, 0%float) (λ _, EmptyString) (λ _, []) (λ _, QRect_null)
         (λ font, existsb (String.eqb font) installed) (λ _, true)
         (mkQRect 0 0 1920 1080) "rstudio.exe" (λ _, None) (λ _ _, None) INT_MIN.

Definition host_macos (install : option FilePath) : Host :=
  mkHost MacOS "--run-diagnostics"
         (λ _, false) (λ _, 0%float) (λ _, EmptyString) (λ _, []) (λ _, QRect_null)
         (λ _, false) (λ _, true)
         (mkQRect 0 0 1440 900) "RStudio" (λ _, None) (λ _ _, install) INT_MIN.

(** A Linux host on a desktop of the given size. *)
Definition host_desktop (w h : Z) : Host :=
  mkHost Linux "--run-diagnostics"
         (λ _, false) (λ _, 0%float) (λ _, EmptyString) (λ _, []) (λ _, QRect_null)
         (λ _, false) (λ _, true)
         (mkQRect 0 0 w h) "rstudio" (λ _, None) (λ _ _, None) INT_MIN.

(** A Linux host whose font database has the fonts [installed], of which
    those in [fixed] are fixed-width. *)
Definition host_fonts (installed fixed : list QString) : Host :=
  mkHost Linux "--run-diagnostics"
         (λ _, false) (λ _, 0%float) (λ _, EmptyString) (λ _, []) (λ _, QRect_null)
         (λ font, existsb (String.eqb font) installed)
         (λ font, existsb (String.eqb font) fixed)
         (mkQRect 0 0 1920 1080) "rstudio" (λ _, None) (λ _ _, None) INT_MIN.

(** ** Predicates on states *)

(** The keys of the settings store that this file reads or writes. *)
Definition options_keys : list QString :=
  ["mainwindow/bounds"; "desktop.renderingEngine"; "font.proportional";
   "font.fixedWidth"; "view.zoomLevel"; "view.accessibility";
   "clipboard.monitoring"; "general.ignoreGpuBlacklist";
   "general.disableGpuDriverBugWorkarounds"; "RBinDir"; "ignoredUpdateVersions"].

(** The desktop frame shows the zoom level that [zoomLevel] reports. *)
Definition zoom_synchronized (host : Host) (w : World) : Prop :=
  frameZoomLevel (desktopInfo w) = zoomLevel host (options w).

(** The name of the local peer pipe for a port number. *)
Definition pipe_name (port : QString) : string :=
  "\\.\pipe\" +:+ port +:+ "-rsession".

(** A cached port number comes with its local peer, which the process
    environment exports. *)
Definition peer_synchronized (w : World) : Prop :=
  portNumber_ (options w) ≠ EmptyString →
  localPeer_ (options w) = pipe_name (portNumber_ (options w)) ∧
  environment w !! "RS_LOCAL_PEER" = Some (localPeer_ (options w)).

(** ** Runs *)

(** A process that has just constructed its [Options]: the settings
    store is what was persisted and no member is set yet. *)
Definition start (store : gmap string QVariant) (env : gmap string string)
           (scratch : QString) (fs : FileSystem) (frame : DesktopInfo) : World :=
  mkWorld (options_with store) scratch frame env fs.

(** A run: the operations in order, the operation in position [i] with
    [draws i] at hand, the integer that the random source yields should
    the operation draw.  The results come in the order of the
    operations. *)
Fixpoint run_all (host : Host) (ops : list Op) (draws : nat → Z) (w : World)
  : list Result * World :=
  match ops with
  | [] => ([], w)
  | op :: rest =>
      let '(result, w) := run host op (draws 0%nat) w in
      let '(results, w) := run_all host rest (λ i, draws (S i)) w in
      (result :: results, w)
  end.

(** Two random sources yield the same integer wherever the run draws
    one; elsewhere they may differ. *)
Fixpoint same_draws (host : Host) (ops : list Op) (draws1 draws2 : nat → Z)
         (w : World) : Prop :=
  match ops with
  | [] => True
  | op :: rest =>
      (draws_random op w = true → draws1 0%nat = draws2 0%nat) ∧
      same_draws host rest (λ i, draws1 (S i)) (λ i, draws2 (S i))
                 (run host op (draws1 0%nat) w).2
  end.

(** Two hosts agree on what the operations ask of a host: the build
    target and its option name, the conversions of every variant, the
    font database on the candidate fonts, the size of the desktop, the
    two system paths of the program, and the absolute value of
    [INT_MIN].  They may differ on every other font and path. *)
Definition same_host (h1 h2 : Host) : Prop :=
  platform h1 = platform h2 ∧
  kRunDiagnosticsOption h1 = kRunDiagnosticsOption h2 ∧
  (∀ v, qt_toBool h1 v = qt_toBool h2 v) ∧
  (∀ v, qt_toDouble h1 v = qt_toDouble h2 v) ∧
  (∀ v, qt_toString h1 v = qt_toString h2 v) ∧
  (∀ v, qt_toStringList h1 v = qt_toStringList h2 v) ∧
  (∀ v, qt_toRect h1 v = qt_toRect h2 v) ∧
  Forall (λ f, QFont_exactMatch h1 f = QFont_exactMatch h2 f)
         (proportionalFontList h1 ++ fixedWidthFontList h1)%list ∧
  Forall (λ f, isFixedWidthFont h1 f = isFixedWidthFont h2 f)
         (fixedWidthFontList h1) ∧
  rect_width (availableGeometry h1) = rect_width (availableGeometry h2) ∧
  rect_height (availableGeometry h1) = rect_height (availableGeometry h2) ∧
  system_executablePath h1 (argv0 h1) = system_executablePath h2 (argv0 h2) ∧
  system_installPath h1 ".." (argv0 h1) = system_installPath h2 ".." (argv0 h2) ∧
  abs_INT_MIN h1 = abs_INT_MIN h2.

(** Two filesystems hold the same paths, and a tmp child of the scratch
    directory can be created in both or in neither. *)
Definition same_files (scratch : QString) (fs1 fs2 : FileSystem) : Prop :=
  entries fs1 = entries fs2 ∧
  creatable fs1 (FilePath_childPath (constData scratch) "tmp")
    = creatable fs2 (FilePath_childPath (constData scratch) "tmp").

(** Two states agree on the [Options] members with their store, on the
    scratch path, on the process environment and on the files.  The
    desktop frame is left out. *)
Definition same_state (w1 w2 : World) : Prop :=
  options w1 = options w2 ∧
  scratchPath w1 = scratchPath w2 ∧
  environment w1 = environment w2 ∧
  same_files (scratchPath w1) (filesystem w1) (filesystem w2).

(** * Properties *)

(** ** The settings store *)

Lemma QSettings_value_or_absent key d (s : gmap string QVariant) :
  s !! key = None → QSettings_value_or key d s = d.
Proof. intros H. unfold QSettings_value_or. by rewrite H. Qed.

Lemma QSettings_value_or_present key d v (s : gmap string QVariant) :
  s !! key = Some v → QSettings_value_or key d s = v.
Proof. intros H. unfold QSettings_value_or. by rewrite H. Qed.

Lemma QSettings_value_setValue key d v (s : gmap string QVariant) :
  QSettings_value_or key d (QSettings_setValue key v s) = v.
Proof.
  apply QSettings_value_or_present. unfold QSettings_setValue.
  apply lookup_insert_eq.
Qed.

Lemma QSettings_remove_lookup key key' (s : gmap string QVariant) :
  QSettings_remove key s !! key' = if in_group key key' then None else s !! key'.
Proof.
  unfold QSettings_remove.
  destruct (in_group key key') eqn:Hg.
  - apply map_lookup_filter_None. right. intros v _ Hf. simpl in Hf. congruence.
  - destruct (s !! key') as [v|] eqn:Hs.
    + apply map_lookup_filter_Some. split; [done | exact Hg].
    + apply map_lookup_filter_None. left. exact Hs.
Qed.

Lemma in_group_refl key : in_group key key = true.
Proof. unfold in_group. by rewrite String.eqb_refl. Qed.

Section Accessors.

Context (host : Host).

(** C2: each scalar preference accessor reads its key and returns its
    default when the key is absent: [zoomLevel] gives 1.0,
    [enableAccessibility] false and [clipboardMonitoring] true; when
    the key is present each returns the stored value, that is the
    stored variant converted to the accessor's type, which for a stored
    double (respectively boolean) is that very value. *)
Theorem scalar_accessors_read_with_default (o : Options) :
  (settings_ o !! "view.zoomLevel" = None → zoomLevel host o = 1%float) ∧
  (settings_ o !! "view.accessibility" = None → enableAccessibility host o = false) ∧
  (settings_ o !! "clipboard.monitoring" = None → clipboardMonitoring host o = true) ∧
  (∀ v, settings_ o !! "view.zoomLevel" = Some v →
        zoomLevel host o = QVariant_toDouble host v) ∧
  (∀ v, settings_ o !! "view.accessibility" = Some v →
        enableAccessibility host o = QVariant_toBool host v) ∧
  (∀ v, settings_ o !! "clipboard.monitoring" = Some v →
        clipboardMonitoring host o = QVariant_toBool host v) ∧
  (∀ d, settings_ o !! "view.zoomLevel" = Some (VDouble d) → zoomLevel host o = d) ∧
  (∀ b, settings_ o !! "view.accessibility" = Some (VBool b) →
        enableAccessibility host o = b) ∧
  (∀ b, settings_ o !! "clipboard.monitoring" = Some (VBool b) →
        clipboardMonitoring host o = b).
Proof.
  unfold zoomLevel, enableAccessibility, clipboardMonitoring.
  repeat split; intros.
  all: match goal with
       | H : _ !! _ = None |- _ => rewrite (QSettings_value_or_absent _ _ _ H)
       | H : _ !! _ = Some _ |- _ => rewrite (QSettings_value_or_present _ _ _ _ H)
       end; reflexivity.
Qed.

(** C3: with their keys absent [ignoreGpuBlacklist] and
    [disableGpuDriverBugWorkarounds] return false, and after the
    matching setter has stored [b] the getter returns [b]. *)
Theorem gpu_flags_read_with_default (o : Options) (b : bool) :
  (settings_ o !! "general.ignoreGpuBlacklist" = None →
   ignoreGpuBlacklist host o = false) ∧
  (settings_ o !! "general.disableGpuDriverBugWorkarounds" = None →
   disableGpuDriverBugWorkarounds host o = false) ∧
  ignoreGpuBlacklist host (setIgnoreGpuBlacklist b o) = b ∧
  disableGpuDriverBugWorkarounds host (setDisableGpuDriverBugWorkarounds b o) = b.
Proof.
  unfold ignoreGpuBlacklist, disableGpuDriverBugWorkarounds.
  repeat split.
  - intros H. by rewrite QSettings_value_or_absent.
  - intros H. by rewrite QSettings_value_or_absent.
  - unfold setIgnoreGpuBlacklist. cbn [settings_ set_settings].
    by rewrite QSettings_value_setValue.
  - unfold setDisableGpuDriverBugWorkarounds. cbn [settings_ set_settings].
    by rewrite QSettings_value_setValue.
Qed.

(** C4: after [saveMainWindowBounds win] the store holds the window's
    rectangle under the bounds key, and [restoreMainWindowBounds] then
    does to any window exactly what [setGeometry] with that rectangle
    does, whatever the desktop's size: the window's geometry is the
    saved rectangle. *)
Theorem window_bounds_round_trip (o : Options) (win win' : QMainWindow) :
  settings_ (saveMainWindowBounds win o) !! "mainwindow/bounds"
    = Some (VRect (geometry win)) ∧
  restoreMainWindowBounds host (saveMainWindowBounds win o) win'
    = QMainWindow_setGeometry (geometry win) win' ∧
  geometry (restoreMainWindowBounds host (saveMainWindowBounds win o) win')
    = geometry win.
Proof.
  assert (Hl : settings_ (saveMainWindowBounds win o) !! "mainwindow/bounds"
               = Some (VRect (geometry win))).
  { unfold saveMainWindowBounds, QSettings_setValue. cbn [settings_ set_settings].
    apply lookup_insert_eq. }
  assert (Hr : restoreMainWindowBounds host (saveMainWindowBounds win o) win'
               = QMainWindow_setGeometry (geometry win) win').
  { unfold restoreMainWindowBounds, QSettings_contains, QSettings_value,
      QSettings_value_or.
    by rewrite Hl. }
  split; [exact Hl | split; [exact Hr |]].
  by rewrite Hr.
Qed.

(** C5: after [setZoomLevel z] the store holds [z] under the zoom key,
    the desktop frame's zoom level is [z], and [zoomLevel] returns
    [z]. *)
Theorem zoom_level_persists (z : double) (w : World) :
  settings_ (options (setZoomLevel z w)) !! "view.zoomLevel" = Some (VDouble z) ∧
  frameZoomLevel (desktopInfo (setZoomLevel z w)) = z ∧
  zoomLevel host (options (setZoomLevel z w)) = z.
Proof.
  assert (Hl : settings_ (options (setZoomLevel z w)) !! "view.zoomLevel"
               = Some (VDouble z)).
  { unfold setZoomLevel, QSettings_setValue. cbn. apply lookup_insert_eq. }
  split; [exact Hl |]. split.
  - reflexivity.
  - unfold zoomLevel. by rewrite (QSettings_value_or_present _ _ _ _ Hl).
Qed.

End Accessors.

Lemma scalar_accessors_witness :
  zoomLevel (host_linux []) (options_with ∅) = 1%float ∧
  enableAccessibility (host_linux []) (options_with ∅) = false ∧
  clipboardMonitoring (host_linux []) (options_with ∅) = true ∧
  zoomLevel (host_linux []) (options_with settings_saved) = 2%float ∧
  enableAccessibility (host_linux []) (options_with settings_saved) = true ∧
  clipboardMonitoring (host_linux []) (options_with settings_saved) = false.
Proof.
  destruct (scalar_accessors_read_with_default (host_linux []) (options_with ∅))
    as (Hz & Ha & Hc & _).
  destruct (scalar_accessors_read_with_default (host_linux [])
              (options_with settings_saved))
    as (_ & _ & _ & _ & _ & _ & Hz' & Ha' & Hc').
  split_and!.
  - apply Hz. reflexivity.
  - apply Ha. reflexivity.
  - apply Hc. reflexivity.
  - apply Hz'. reflexivity.
  - apply Ha'. reflexivity.
  - apply Hc'. reflexivity.
Defined.

Lemma gpu_flags_witness :
  ignoreGpuBlacklist (host_linux []) (options_with ∅) = false ∧
  disableGpuDriverBugWorkarounds (host_linux []) (options_with ∅) = false ∧
  ignoreGpuBlacklist (host_linux []) (setIgnoreGpuBlacklist true (options_with ∅)) = true.
Proof.
  destruct (gpu_flags_read_with_default (host_linux []) (options_with ∅) true)
    as (Hi & Hd & Hs & _).
  split_and!.
  - apply Hi. reflexivity.
  - apply Hd. reflexivity.
  - exact Hs.
Defined.

(** ** Setters and the keys they do not name *)

Lemma in_group_false key key' :
  key' ≠ key → String.prefix (key +:+ "/") key' = false → in_group key key' = false.
Proof.
  intros Hne Hp. unfold in_group. rewrite Hp, orb_false_r.
  apply String.eqb_neq. congruence.
Qed.

Section Frame.

Context (host : Host).

(** C7, as amended: a setter leaves every key other than the one it
    names as it was, except that [setFixedWidthFont] with the empty
    string removes its key together with the sub-settings of that key,
    so that there the keys that keep their value are those outside the
    group of the fixed-width font key. *)
Theorem setters_write_own_key (s : Setter) (w : World) (key : QString) :
  key ≠ setter_key s →
  (s = SetFixedWidthFont EmptyString →
   String.prefix "font.fixedWidth/" key = false) →
  settings_after host s w !! key = settings_ (options w) !! key.
Proof.
  intros Hne Hsub. unfold settings_after.
  destruct s; cbn in Hne |- *;
    try (unfold QSettings_setValue; by rewrite lookup_insert_ne).
  unfold setFixedWidthFont. destruct font as [|c font]; cbn.
  - rewrite QSettings_remove_lookup.
    by rewrite in_group_false; [| | apply Hsub].
  - unfold QSettings_setValue. by rewrite lookup_insert_ne.
Qed.

End Frame.

Lemma setters_write_own_key_witness :
  settings_after (host_linux []) (SetEnableAccessibility false)
                 (world_with settings_saved EmptyString [] (λ _, true))
    !! "view.zoomLevel" = Some (VDouble 2%float).
Proof.
  rewrite (setters_write_own_key (host_linux []) (SetEnableAccessibility false)
             (world_with settings_saved EmptyString [] (λ _, true))
             "view.zoomLevel").
  - reflexivity.
  - discriminate.
  - discriminate.
Defined.

(** C7, as stated, fails: [setFixedWidthFont] with the empty string
    removes a sub-setting of its key, which is a key other than its
    own. *)
Lemma setFixedWidthFont_removes_sub_settings :
  ¬ (∀ (host : Host) (s : Setter) (w : World) (key : QString),
       key ≠ setter_key s →
       settings_after host s w !! key = settings_ (options w) !! key).
Proof.
  intros H.
  specialize (H (host_linux []) (SetFixedWidthFont EmptyString)
                (world_with settings_sub EmptyString [] (λ _, true))
                "font.fixedWidth/size").
  vm_compute in H.
  assert (Hn : "font.fixedWidth/size" ≠ "font.fixedWidth") by discriminate.
  specialize (H Hn). discriminate H.
Qed.

(** ** Fonts *)

Lemma QString_isEmpty_false (s : QString) : s ≠ EmptyString → QString_isEmpty s = false.
Proof. by destruct s. Qed.

Lemma QString_isEmpty_true (s : QString) : s = EmptyString → QString_isEmpty s = true.
Proof. by intros ->. Qed.

Lemma length_append (s t : string) :
  String.length (s +:+ t) = (String.length s + String.length t)%nat.
Proof. induction s as [|c s IH]; simpl; [done | by rewrite IH]. Qed.

Lemma quoted_differs (s : QString) : dquote +:+ s +:+ dquote ≠ s.
Proof.
  intros H. apply (f_equal String.length) in H.
  rewrite !length_append in H. simpl in H. lia.
Qed.

Section Fonts.

Context (host : Host).

(** Without the fixed-width filter the loop returns the first font of
    the list that the font database matches exactly, and the default
    when there is none. *)
Lemma findFirstMatchingFont_first (fonts : list QString) (defaultFont : QString) :
  (∃ before font after,
      fonts = (before ++ font :: after)%list ∧
      Forall (λ f, QFont_exactMatch host f = false) before ∧
      QFont_exactMatch host font = true ∧
      findFirstMatchingFont host fonts defaultFont false = font) ∨
  (Forall (λ f, QFont_exactMatch host f = false) fonts ∧
   findFirstMatchingFont host fonts defaultFont false = defaultFont).
Proof.
  induction fonts as [|f fonts IH]; simpl.
  - right. by split.
  - destruct (QFont_exactMatch host f) eqn:Hf.
    + left. exists [], f, fonts. by repeat split.
    + destruct IH as [(before & font & after & -> & Hb & Hm & Hr) | [Hall Hr]].
      * left. exists (f :: before), font, after.
        split; [done |]. split; [by constructor |]. by split.
      * right. split; [by constructor | done].
  Qed.

Lemma proportionalFontList_not_generic :
  Forall (λ f, String.eqb f "sans-serif" = false) (proportionalFontList host).
Proof.
  unfold proportionalFontList. destruct (platform host); repeat constructor.
Qed.

(** C8: [proportionalFont] returns the stored proportional font as it
    is when that is not empty; otherwise it returns, between double
    quotes, the first font of the platform's candidate list that the
    font database matches exactly, and the bare generic name when no
    candidate matches. *)
Theorem proportionalFont_selection (o : Options) :
  let stored :=
    QVariant_toString host (QSettings_value "font.proportional" (settings_ o)) in
  (stored ≠ EmptyString → proportionalFont host o = stored) ∧
  (∀ s, settings_ o !! "font.proportional" = Some (VString s) →
        s ≠ EmptyString → proportionalFont host o = s) ∧
  (stored = EmptyString →
   (∃ before font after,
       proportionalFontList host = (before ++ font :: after)%list ∧
       Forall (λ f, QFont_exactMatch host f = false) before ∧
       QFont_exactMatch host font = true ∧
       proportionalFont host o = dquote +:+ font +:+ dquote) ∨
   (Forall (λ f, QFont_exactMatch host f = false) (proportionalFontList host) ∧
    proportionalFont host o = "sans-serif")).
Proof.
  intros stored.
  assert (Hstored : stored ≠ EmptyString → proportionalFont host o = stored).
  { intros Hne. unfold proportionalFont. fold stored.
    by rewrite (QString_isEmpty_false _ Hne). }
  split; [exact Hstored |]. split.
  - intros s Hs Hne.
    assert (Heq : stored = s).
    { unfold stored, QSettings_value.
      by rewrite (QSettings_value_or_present _ _ _ _ Hs). }
    rewrite <- Heq in *. by apply Hstored.
  - intros Hempty. unfold proportionalFont. fold stored.
    rewrite (QString_isEmpty_true _ Hempty). cbn [negb QString_isEmpty].
    destruct (findFirstMatchingFont_first (proportionalFontList host) "sans-serif")
      as [(before & font & after & Hl & Hb & Hm & Hr) | [Hall Hr]].
    + left. exists before, font, after. repeat split; try done.
      rewrite Hr.
      assert (Hg : String.eqb font "sans-serif" = false).
      { pose proof proportionalFontList_not_generic as Hn.
        rewrite Hl in Hn. apply Forall_app in Hn as [_ Hn].
        by inversion Hn. }
      by rewrite Hg.
    + right. split; [done |]. by rewrite Hr.
Qed.

(** C9: after [setFixedWidthFont f] with [f] not empty,
    [fixedWidthFont] returns [f] between double quotes, which is not
    [f]; [setFixedWidthFont] with the empty string removes the
    fixed-width font key, and the getter then returns what the
    detection over the platform's fixed-width candidates gives. *)
Theorem fixedWidthFont_round_trip (o : Options) (f : QString) :
  (f ≠ EmptyString →
   fixedWidthFont host (setFixedWidthFont f o) = dquote +:+ f +:+ dquote ∧
   fixedWidthFont host (setFixedWidthFont f o) ≠ f) ∧
  settings_ (setFixedWidthFont EmptyString o) !! "font.fixedWidth" = None ∧
  fixedWidthFont host (setFixedWidthFont EmptyString o)
    = (let matchingFont :=
         findFirstMatchingFont host (fixedWidthFontList host) "monospace" true in
       if String.eqb matchingFont "monospace" then "monospace"
       else QString_quoted_arg matchingFont).
Proof.
  assert (Hgone : settings_ (setFixedWidthFont EmptyString o) !! "font.fixedWidth"
                  = None).
  { unfold setFixedWidthFont. cbn [QString_isEmpty settings_ set_settings].
    by rewrite QSettings_remove_lookup, in_group_refl. }
  split; [| split; [exact Hgone |]].
  - intros Hne.
    assert (Hq : fixedWidthFont host (setFixedWidthFont f o)
                 = dquote +:+ f +:+ dquote).
    { unfold fixedWidthFont, setFixedWidthFont, QSettings_value.
      rewrite (QString_isEmpty_false _ Hne). cbn [settings_ set_settings].
      rewrite QSettings_value_setValue. cbn [QVariant_toString].
      by rewrite (QString_isEmpty_false _ Hne). }
    split; [exact Hq |]. rewrite Hq. apply quoted_differs.
  - unfold fixedWidthFont, QSettings_value.
    by rewrite (QSettings_value_or_absent _ _ _ Hgone).
Qed.

End Fonts.

Lemma proportionalFont_selection_witness :
  proportionalFont (host_linux ["DejaVu Sans"; "Verdana"])
                   (options_with (<["font.proportional" := VString "Arial"]> ∅))
    = "Arial" ∧
  ((∃ before font after,
       proportionalFontList (host_linux ["DejaVu Sans"; "Verdana"])
         = (before ++ font :: after)%list ∧
       Forall (λ f, QFont_exactMatch (host_linux ["DejaVu Sans"; "Verdana"]) f = false)
              before ∧
       QFont_exactMatch (host_linux ["DejaVu Sans"; "Verdana"]) font = true ∧
       proportionalFont (host_linux ["DejaVu Sans"; "Verdana"]) (options_with ∅)
         = dquote +:+ font +:+ dquote) ∨
   (Forall (λ f, QFont_exactMatch (host_linux ["DejaVu Sans"; "Verdana"]) f = false)
           (proportionalFontList (host_linux ["DejaVu Sans"; "Verdana"])) ∧
    proportionalFont (host_linux ["DejaVu Sans"; "Verdana"]) (options_with ∅)
      = "sans-serif")).
Proof.
  destruct (proportionalFont_selection
              (host_linux ["DejaVu Sans"; "Verdana"])
              (options_with (<["font.proportional" := VString "Arial"]> ∅)))
    as (Hs & _ & _).
  destruct (proportionalFont_selection
              (host_linux ["DejaVu Sans"; "Verdana"]) (options_with ∅))
    as (_ & _ & He).
  split.
  - apply Hs. discriminate.
  - apply He. reflexivity.
Defined.

Lemma fixedWidthFont_round_trip_witness :
  fixedWidthFont (host_linux []) (setFixedWidthFont "Consolas" (options_with ∅))
    = dquote +:+ "Consolas" +:+ dquote.
Proof.
  destruct (fixedWidthFont_round_trip (host_linux []) (options_with ∅) "Consolas")
    as (Hq & _ & _).
  apply Hq. discriminate.
Defined.

(** ** The scratch directory *)

Lemma within_refl (p : FilePath) : within p p = true.
Proof. unfold within. by rewrite String.eqb_refl. Qed.

Lemma childPath_not_empty (p : FilePath) (child : string) :
  FilePath_empty (FilePath_childPath p child) = false.
Proof. by destruct p. Qed.

Lemma with_filesystem_same (w : World) : with_filesystem (filesystem w) w = w.
Proof. by destruct w. Qed.

(** [ensureDirectory] reports no error exactly when the path exists
    afterwards, and it touches no other path. *)
Lemma ensureDirectory_exists (fs : FileSystem) (p : FilePath) :
  FilePath_empty p = false →
  (FilePath_ensureDirectory fs p).1 = false →
  FilePath_exists (FilePath_ensureDirectory fs p).2 p = true.
Proof.
  intros Hp. unfold FilePath_ensureDirectory.
  destruct (FilePath_exists fs p) eqn:He; [done |].
  destruct (creatable fs p); [| done]. intros _. cbn.
  unfold FilePath_exists. rewrite Hp. cbn.
  apply bool_decide_eq_true. set_solver.
Qed.

Lemma ensureDirectory_failed (fs : FileSystem) (p : FilePath) :
  (FilePath_ensureDirectory fs p).1 = true → (FilePath_ensureDirectory fs p).2 = fs.
Proof.
  unfold FilePath_ensureDirectory.
  destruct (FilePath_exists fs p); [done |]. by destruct (creatable fs p).
Qed.

Lemma ensureDirectory_others (fs : FileSystem) (p q : FilePath) :
  q ≠ p → q ∈ entries (FilePath_ensureDirectory fs p).2 ↔ q ∈ entries fs.
Proof.
  intros Hne. unfold FilePath_ensureDirectory.
  destruct (FilePath_exists fs p); [done |].
  destruct (creatable fs p); [| done]. cbn.
  rewrite elem_of_union, elem_of_singleton. tauto.
Qed.

Lemma removeIfExists_outside (fs : FileSystem) (p q : FilePath) :
  within p q = false → q ∈ entries (FilePath_removeIfExists fs p) ↔ q ∈ entries fs.
Proof.
  intros Hq. unfold FilePath_removeIfExists.
  destruct (FilePath_exists fs p); [| done]. cbn.
  rewrite elem_of_filter. tauto.
Qed.

Lemma removeIfExists_inside (fs : FileSystem) (p q : FilePath) :
  FilePath_exists fs p = true → within p q = true →
  q ∉ entries (FilePath_removeIfExists fs p).
Proof.
  intros He Hq. unfold FilePath_removeIfExists. rewrite He. cbn.
  rewrite elem_of_filter. intros [Hf _]. congruence.
Qed.

(** C6: [scratchTempDir] returns the tmp child of the scratch path when
    the scratch path is not empty, exists, and the tmp child could be
    ensured, and the default path it was given in every other case.
    [cleanUpScratchTempDir] leaves every path outside the tmp child as it
    was (whether it existed or not), leaves nothing inside the tmp child
    when the scratch directory was usable, and changes nothing at all
    otherwise. *)
Theorem scratchTempDir_cleanUp (defaultPath : FilePath) (w : World) :
  let dir := scratchDir w in
  let tmp := FilePath_childPath dir "tmp" in
  let usable :=
    negb (FilePath_empty dir) && FilePath_exists (filesystem w) dir &&
    negb (FilePath_ensureDirectory (filesystem w) tmp).1 in
  (scratchTempDir defaultPath w).1 = (if usable then tmp else defaultPath) ∧
  (∀ p, within tmp p = false →
        p ∈ entries (filesystem (cleanUpScratchTempDir w))
        ↔ p ∈ entries (filesystem w)) ∧
  (usable = true →
   ∀ p, within tmp p = true → p ∉ entries (filesystem (cleanUpScratchTempDir w))) ∧
  (usable = false → cleanUpScratchTempDir w = w).
Proof.
  intros dir tmp usable.
  unfold cleanUpScratchTempDir, scratchTempDir. fold dir. fold tmp.
  subst usable.
  destruct (negb (FilePath_empty dir) && FilePath_exists (filesystem w) dir) eqn:Hv;
    cbn [andb].
  - pose proof (ensureDirectory_exists (filesystem w) tmp
                  (childPath_not_empty dir "tmp")) as Hex.
    pose proof (ensureDirectory_failed (filesystem w) tmp) as Hfail.
    pose proof (ensureDirectory_others (filesystem w) tmp) as Hoth.
    destruct (FilePath_ensureDirectory (filesystem w) tmp) as [error fs'].
    cbn [fst snd] in *. destruct error; cbn [negb fst].
    + rewrite (Hfail eq_refl), with_filesystem_same.
      split_and!; try done.
    + rewrite (childPath_not_empty dir "tmp" : FilePath_empty tmp = false).
      cbn [negb filesystem with_filesystem].
      split_and!; try done.
      * intros p Hp. rewrite removeIfExists_outside by done.
        apply Hoth. intros ->. rewrite within_refl in Hp. done.
      * intros _ p Hp. apply removeIfExists_inside; [by apply Hex | done].
  - cbn [negb FilePath_empty QString_isEmpty fst]. split_and!; done.
Qed.

Lemma scratchTempDir_cleanUp_witness :
  (scratchTempDir "/tmp" (world_with ∅ "/scratch" ["/scratch"] (λ _, true))).1
    = "/scratch/tmp" ∧
  ("/tmp" ∈ entries (filesystem (cleanUpScratchTempDir
                       (world_with ∅ "/scratch" ["/scratch"; "/tmp"] (λ _, true))))) ∧
  ("/scratch/tmp/a" ∉ entries (filesystem (cleanUpScratchTempDir
                       (world_with ∅ "/scratch" ["/scratch"; "/scratch/tmp/a"]
                                   (λ _, true))))) ∧
  cleanUpScratchTempDir (world_with ∅ "/gone" ["/tmp"] (λ _, true))
    = world_with ∅ "/gone" ["/tmp"] (λ _, true).
Proof.
  split_and!.
  - destruct (scratchTempDir_cleanUp "/tmp"
                (world_with ∅ "/scratch" ["/scratch"] (λ _, true))) as (H & _).
    exact H.
  - destruct (scratchTempDir_cleanUp "/tmp"
                (world_with ∅ "/scratch" ["/scratch"; "/tmp"] (λ _, true)))
      as (_ & H & _).
    apply H; [reflexivity |]. vm_compute. reflexivity.
  - destruct (scratchTempDir_cleanUp "/tmp"
                (world_with ∅ "/scratch" ["/scratch"; "/scratch/tmp/a"] (λ _, true)))
      as (_ & _ & H & _).
    apply H; reflexivity.
  - destruct (scratchTempDir_cleanUp "/tmp"
                (world_with ∅ "/gone" ["/tmp"] (λ _, true))) as (_ & _ & _ & H).
    apply H. reflexivity.
Defined.

(** ** Port numbers *)

Lemma std_abs_above_INT_MIN (host : Host) (x : Z) :
  INT_MIN < x ≤ INT_MAX → std_abs host x = Z.abs x.
Proof.
  unfold std_abs. intros Hx.
  destruct (Z.ltb_spec x 0) as [Hneg | Hpos].
  - destruct (Z.eqb_spec x INT_MIN) as [He | Hne]; [lia |].
    by rewrite Z.abs_neq by lia.
  - by rewrite Z.abs_eq.
Qed.

Lemma std_abs_INT_MIN (host : Host) : std_abs host INT_MIN = abs_INT_MIN host.
Proof. reflexivity. Qed.

Section Ports.

Context (host : Host).

(** A port number is generated only when none is cached. *)
Lemma portNumber_cached (random : Z) (w : World) :
  portNumber_ (options w) ≠ EmptyString →
  portNumber host random w = (portNumber_ (options w), w).
Proof.
  intros Hne. unfold portNumber.
  by destruct (portNumber_ (options w)) as [|c s].
Qed.

Lemma newPortNumber_generates (random : Z) (w : World) :
  (newPortNumber host random w).1
    = QString_number (int_rem (std_abs host random) 40000 + 8080).
Proof.
  unfold newPortNumber, portNumber. cbn. by destruct (platform host).
Qed.

(** For every draw but [INT_MIN] the generated port number is the
    decimal representation of [|random| mod 40000 + 8080], which lies
    between 8080 and 48079. *)
Lemma newPortNumber_in_range (random : Z) (w : World) :
  INT_MIN < random ≤ INT_MAX →
  ∃ n, 8080 ≤ n ≤ 48079 ∧ n = Z.abs random mod 40000 + 8080 ∧
       (newPortNumber host random w).1 = QString_number n.
Proof.
  intros Hr. exists (Z.abs random mod 40000 + 8080).
  pose proof (Z.mod_pos_bound (Z.abs random) 40000 ltac:(lia)) as Hm.
  split; [lia |]. split; [done |].
  rewrite newPortNumber_generates, (std_abs_above_INT_MIN _ _ Hr).
  unfold int_rem. rewrite Z.rem_mod_nonneg by lia. done.
Qed.

(** C10 fails at one draw: when the random source yields [INT_MIN], the
    call of [std::abs] is undefined and the source does not fix the port
    number: it is the decimal representation of what the build makes of
    the absolute value, reduced and shifted.  Where the negation wraps
    around that is 4432, below 8080; where the absolute value comes out
    as 2147483648 it is 11728. *)
Theorem newPortNumber_at_INT_MIN (w : World) :
  (newPortNumber host INT_MIN w).1
    = QString_number (int_rem (abs_INT_MIN host) 40000 + 8080) ∧
  (abs_INT_MIN host = INT_MIN →
   (newPortNumber host INT_MIN w).1 = "4432" ∧ ¬ (8080 ≤ 4432 ≤ 48079)) ∧
  (abs_INT_MIN host = 2147483648 → (newPortNumber host INT_MIN w).1 = "11728").
Proof.
  rewrite newPortNumber_generates, std_abs_INT_MIN.
  split_and!; [reflexivity | |].
  - intros ->. split; [reflexivity | lia].
  - intros ->. reflexivity.
Qed.

End Ports.

Lemma newPortNumber_at_INT_MIN_witness :
  (newPortNumber (host_linux []) INT_MIN world_fresh).1 = "4432" ∧
  (newPortNumber host_optimised INT_MIN world_fresh).1 = "11728".
Proof.
  split.
  - apply (newPortNumber_at_INT_MIN (host_linux []) world_fresh). reflexivity.
  - apply (newPortNumber_at_INT_MIN host_optimised world_fresh). reflexivity.
Defined.


(** ** The operations on concrete states *)

Example portNumber_draw_0 :
  (portNumber (host_linux []) 0 world_fresh).1 = "8080".
Proof. reflexivity. Qed.

Example portNumber_draw_negative :
  (portNumber (host_linux []) (-40001) world_fresh).1 = "8081".
Proof. reflexivity. Qed.

Example portNumber_draw_INT_MAX :
  (portNumber (host_linux []) INT_MAX world_fresh).1 = "11727".
Proof. reflexivity. Qed.

Example portNumber_keeps_cache :
  (portNumber (host_linux []) 5 (portNumber (host_linux []) 0 world_fresh).2).1 = "8080".
Proof. reflexivity. Qed.

Example proportionalFont_detected :
  proportionalFont (host_linux ["Verdana"; "DejaVu Sans"]) (options_with ∅)
    = dquote +:+ "DejaVu Sans" +:+ dquote.
Proof. reflexivity. Qed.

Example proportionalFont_generic :
  proportionalFont (host_linux ["Arial"]) (options_with ∅) = "sans-serif".
Proof. reflexivity. Qed.

Example fixedWidthFont_detected :
  fixedWidthFont (host_linux ["Monospace"; "Consolas"]) (options_with ∅)
    = dquote +:+ "Monospace" +:+ dquote.
Proof. reflexivity. Qed.

Example restoreMainWindowBounds_default_size :
  restoreMainWindowBounds (host_linux []) (options_with ∅)
                          (mkQMainWindow (mkQRect 10 20 640 480))
    = mkQMainWindow (mkQRect 10 20 1200 900).
Proof. reflexivity. Qed.

Example setFixedWidthFont_empty_removes_group :
  settings_ (setFixedWidthFont EmptyString (options_with settings_sub))
    !! "font.fixedWidth/size" = None.
Proof. reflexivity. Qed.

Example scratchTempDir_creation_fails :
  (scratchTempDir "/tmp" (world_with ∅ "/scratch" ["/scratch"] (λ _, false))).1
    = "/tmp".
Proof. reflexivity. Qed.

(** * Further properties of the operations *)

(** ** What an operation leaves alone *)

Lemma settings_after_outside_group (host : Host) (s : Setter) (w : World)
      (key : QString) :
  in_group (setter_key s) key = false →
  settings_after host s w !! key = settings_ (options w) !! key.
Proof.
  intros Hg.
  assert (Hne : setter_key s ≠ key).
  { intros He. rewrite He, in_group_refl in Hg. discriminate. }
  unfold settings_after.
  destruct s; cbn in Hne, Hg |- *;
    try (unfold QSettings_setValue; by rewrite lookup_insert_ne).
  unfold setFixedWidthFont. destruct font as [|c font]; cbn.
  - by rewrite QSettings_remove_lookup, Hg.
  - unfold QSettings_setValue. by rewrite lookup_insert_ne.
Qed.

Lemma scanArguments_settings (host : Host) (arguments : list QString) (o : Options) :
  settings_ (scanArguments host arguments o) = settings_ o ∧
  portNumber_ (scanArguments host arguments o) = portNumber_ o ∧
  localPeer_ (scanArguments host arguments o) = localPeer_ o.
Proof.
  revert o. induction arguments as [|arg rest IH]; intros o; [done |].
  cbn [scanArguments]. destruct (IH (if String.eqb arg (kRunDiagnosticsOption host)
                                      then set_runDiagnostics true o else o))
    as (Hs & Hp & Hl).
  rewrite Hs, Hp, Hl. by destruct (String.eqb arg (kRunDiagnosticsOption host)).
Qed.

Lemma scanArguments_runDiagnostics (host : Host) (arguments : list QString)
      (o : Options) :
  runDiagnostics_ (scanArguments host arguments o) = true ↔
  runDiagnostics_ o = true ∨ In (kRunDiagnosticsOption host) arguments.
Proof.
  revert o. induction arguments as [|arg rest IH]; intros o; cbn [scanArguments In].
  - tauto.
  - rewrite IH. destruct (String.eqb_spec arg (kRunDiagnosticsOption host)) as [-> | Hne].
    + cbn. tauto.
    + split; [tauto |]. intros [H | [H | H]]; [by left | congruence | by right].
Qed.

(** The cached path lookups change the path members only. *)
Lemma executablePath_members (host : Host) (o : Options) :
  settings_ (executablePath host o).2 = settings_ o ∧
  portNumber_ (executablePath host o).2 = portNumber_ o ∧
  localPeer_ (executablePath host o).2 = localPeer_ o.
Proof.
  unfold executablePath. cbn [snd].
  destruct (FilePath_empty (executablePath_ o)); [| done].
  by destruct (system_executablePath host (argv0 host)).
Qed.

Lemma supportingFilePath_members (host : Host) (fs : FileSystem) (o : Options) :
  settings_ (supportingFilePath host fs o).2 = settings_ o ∧
  portNumber_ (supportingFilePath host fs o).2 = portNumber_ o ∧
  localPeer_ (supportingFilePath host fs o).2 = localPeer_ o ∧
  scriptsPath_ (supportingFilePath host fs o).2 = scriptsPath_ o ∧
  resourcesPath_ (supportingFilePath host fs o).2 = resourcesPath_ o.
Proof.
  unfold supportingFilePath. cbn [snd].
  destruct (FilePath_empty (supportingFilePath_ o)); [| done].
  destruct (system_installPath host ".." (argv0 host)); destruct (platform host);
    try done;
    match goal with
    | |- context [FilePath_exists ?f ?p] => by destruct (FilePath_exists f p)
    end.
Qed.

Lemma resourcesPath_members (host : Host) (fs : FileSystem) (o : Options) :
  settings_ (resourcesPath host fs o).2 = settings_ o ∧
  portNumber_ (resourcesPath host fs o).2 = portNumber_ o ∧
  localPeer_ (resourcesPath host fs o).2 = localPeer_ o.
Proof.
  unfold resourcesPath. cbn [snd].
  destruct (FilePath_empty (resourcesPath_ o)); [| done].
  destruct (FilePath_exists fs (FilePath_complete (scriptsPath o) "resources"));
    [done |].
  pose proof (supportingFilePath_members host fs o) as (Hs & Hp & Hl & _).
  destruct (supportingFilePath host fs o) as [supporting o']. cbn [snd] in *.
  by cbn.
Qed.

Lemma wwwDocsPath_members (host : Host) (fs : FileSystem) (o : Options) :
  settings_ (wwwDocsPath host fs o).2 = settings_ o ∧
  portNumber_ (wwwDocsPath host fs o).2 = portNumber_ o ∧
  localPeer_ (wwwDocsPath host fs o).2 = localPeer_ o.
Proof.
  unfold wwwDocsPath.
  pose proof (supportingFilePath_members host fs o) as (Hs & Hp & Hl & _).
  destruct (supportingFilePath host fs o) as [supporting o']. cbn [snd] in *.
  done.
Qed.

Lemma scratchTempDir_options (defaultPath : FilePath) (w : World) :
  options (scratchTempDir defaultPath w).2 = options w ∧
  desktopInfo (scratchTempDir defaultPath w).2 = desktopInfo w ∧
  environment (scratchTempDir defaultPath w).2 = environment w.
Proof.
  unfold scratchTempDir.
  destruct (negb (FilePath_empty (scratchDir w)) &&
            FilePath_exists (filesystem w) (scratchDir w)); [| done].
  destruct (FilePath_ensureDirectory (filesystem w)
              (FilePath_childPath (scratchDir w) "tmp")) as [error fs'].
  by destruct error.
Qed.

Lemma cleanUpScratchTempDir_options (w : World) :
  options (cleanUpScratchTempDir w) = options w ∧
  desktopInfo (cleanUpScratchTempDir w) = desktopInfo w ∧
  environment (cleanUpScratchTempDir w) = environment w.
Proof.
  unfold cleanUpScratchTempDir.
  pose proof (scratchTempDir_options EmptyString w) as (Ho & Hd & He).
  destruct (scratchTempDir EmptyString w) as [temp w']. cbn [snd] in *.
  by destruct (FilePath_empty temp).
Qed.

Lemma portNumber_settings (host : Host) (random : Z) (w : World) :
  settings_ (options (portNumber host random w).2) = settings_ (options w) ∧
  desktopInfo (portNumber host random w).2 = desktopInfo w ∧
  filesystem (portNumber host random w).2 = filesystem w ∧
  scratchPath (portNumber host random w).2 = scratchPath w.
Proof.
  unfold portNumber.
  destruct (String.length (portNumber_ (options w)) =? 0)%nat; [| done].
  by destruct (platform host).
Qed.

(** The state after the operations that return a pair. *)
Lemma cached_state (f : Options → FilePath * Options) (w : World) :
  (cached f w).2 = with_options (f (options w)).2 w.
Proof. unfold cached. by destruct (f (options w)). Qed.

Lemma run_portNumber_state (host : Host) (random : Z) (w : World) :
  (run host OpPortNumber random w).2 = (portNumber host random w).2.
Proof. cbn [run]. by destruct (portNumber host random w). Qed.

Lemma run_newPortNumber_state (host : Host) (random : Z) (w : World) :
  (run host OpNewPortNumber random w).2 = (newPortNumber host random w).2.
Proof. cbn [run]. by destruct (newPortNumber host random w). Qed.

Lemma run_scratchTempDir_state (host : Host) (defaultPath : FilePath) (random : Z)
      (w : World) :
  (run host (OpScratchTempDir defaultPath) random w).2
    = (scratchTempDir defaultPath w).2.
Proof. cbn [run]. by destruct (scratchTempDir defaultPath w). Qed.

Section Invariants.

Context (host : Host).

(** X1: [initFromCommandLine] turns diagnostics on exactly when the
    diagnostics option occurs among the arguments after the program name
    (or diagnostics were on already); the argument in position 0 is
    never read as an option, and the settings store is not written. *)
Theorem initFromCommandLine_diagnostics (arguments : list QString) (w : World) :
  (runDiagnostics_ (options (initFromCommandLine host arguments w)) = true ↔
   runDiagnostics_ (options w) = true ∨
   In (kRunDiagnosticsOption host) (skipn 1 arguments)) ∧
  settings_ (options (initFromCommandLine host arguments w)) = settings_ (options w).
Proof.
  unfold initFromCommandLine. cbn [options with_options with_desktopInfo].
  split.
  - apply scanArguments_runDiagnostics.
  - apply scanArguments_settings.
Qed.

(** An operation that is not a setter leaves the settings store as it
    was. *)
Lemma run_settings_frame (op : Op) (random : Z) (w : World) :
  (∀ s, op ≠ setter_op s) →
  settings_ (options (run host op random w).2) = settings_ (options w).
Proof.
  intros Hop.
  destruct op;
    rewrite ?run_portNumber_state, ?run_newPortNumber_state,
      ?run_scratchTempDir_state;
    cbn [run snd]; rewrite ?cached_state; try reflexivity.
  - unfold initFromCommandLine. cbn [options with_options with_desktopInfo].
    apply scanArguments_settings.
  - exfalso. by apply (Hop (SaveMainWindowBounds win)).
  - apply portNumber_settings.
  - unfold newPortNumber. by rewrite (proj1 (portNumber_settings host random _)).
  - exfalso. by apply (Hop (SetDesktopRenderingEngine engine)).
  - exfalso. by apply (Hop (SetFixedWidthFont font)).
  - exfalso. by apply (Hop (SetZoomLevel zoomLevel0)).
  - exfalso. by apply (Hop (SetEnableAccessibility enable)).
  - exfalso. by apply (Hop (SetClipboardMonitoring monitoring)).
  - exfalso. by apply (Hop (SetIgnoreGpuBlacklist ignore)).
  - exfalso. by apply (Hop (SetDisableGpuDriverBugWorkarounds disable)).
  - exfalso. by apply (Hop (SetRBinDir path)).
  - apply executablePath_members.
  - apply supportingFilePath_members.
  - apply resourcesPath_members.
  - apply wwwDocsPath_members.
  - exfalso. by apply (Hop (SetIgnoredUpdateVersions ignoredVersions)).
  - by rewrite (proj1 (scratchTempDir_options defaultPath w)).
  - by rewrite (proj1 (cleanUpScratchTempDir_options w)).
Qed.

(** X2: only the setters write the settings store: every other
    operation (the getters, the port and path operations, the scratch
    directory operations and [initFromCommandLine]) leaves the whole
    store as it was. *)
Theorem run_keeps_settings (op : Op) (random : Z) (w : World) :
  (∀ s, op ≠ setter_op s) →
  settings_ (options (run host op random w).2) = settings_ (options w).
Proof. apply run_settings_frame. Qed.

(** Only [initFromCommandLine] and [setZoomLevel] reach the desktop
    frame. *)
Lemma run_desktopInfo_frame (op : Op) (random : Z) (w : World) :
  (∀ arguments, op ≠ OpInitFromCommandLine arguments) →
  (∀ z, op ≠ OpSetZoomLevel z) →
  desktopInfo (run host op random w).2 = desktopInfo w.
Proof.
  intros Hinit Hzoom.
  destruct op;
    rewrite ?run_portNumber_state, ?run_newPortNumber_state,
      ?run_scratchTempDir_state;
    cbn [run snd]; rewrite ?cached_state; try reflexivity.
  - exfalso. by apply (Hinit arguments).
  - apply portNumber_settings.
  - unfold newPortNumber.
    by rewrite (proj1 (proj2 (portNumber_settings host random _))).
  - exfalso. by apply (Hzoom zoomLevel0).
  - by rewrite (proj1 (proj2 (scratchTempDir_options defaultPath w))).
  - by rewrite (proj1 (proj2 (cleanUpScratchTempDir_options w))).
Qed.

Lemma zoomLevel_same_lookup (o o' : Options) :
  settings_ o !! "view.zoomLevel" = settings_ o' !! "view.zoomLevel" →
  zoomLevel host o = zoomLevel host o'.
Proof.
  intros H. unfold zoomLevel, QSettings_value_or. by rewrite H.
Qed.

(** X3: the desktop frame and the stored zoom level stay synchronized:
    [initFromCommandLine] and [setZoomLevel] leave the frame showing the
    zoom level that [zoomLevel] reports, and every other operation keeps
    that so when it was so before. *)
Theorem zoom_synchronized_invariant (op : Op) (random : Z) (w : World) :
  zoom_synchronized host w ∨
  (∃ arguments, op = OpInitFromCommandLine arguments) ∨
  (∃ z, op = OpSetZoomLevel z) →
  zoom_synchronized host (run host op random w).2.
Proof.
  unfold zoom_synchronized.
  intros [Hsync | [[arguments ->] | [z ->]]].
  - destruct op.
    all: try (rewrite run_desktopInfo_frame by done; rewrite Hsync;
              apply zoomLevel_same_lookup; by rewrite run_settings_frame
                by (intros s; destruct s; discriminate)).
    + reflexivity.
    + rewrite run_desktopInfo_frame by done; rewrite Hsync.
      apply zoomLevel_same_lookup. symmetry.
      exact (settings_after_outside_group host (SaveMainWindowBounds win) w
               "view.zoomLevel" eq_refl).
    + rewrite run_desktopInfo_frame by done; rewrite Hsync.
      apply zoomLevel_same_lookup. symmetry.
      exact (settings_after_outside_group host (SetDesktopRenderingEngine engine) w
               "view.zoomLevel" eq_refl).
    + rewrite run_desktopInfo_frame by done; rewrite Hsync.
      apply zoomLevel_same_lookup. symmetry.
      exact (settings_after_outside_group host (SetFixedWidthFont font) w
               "view.zoomLevel" eq_refl).
    + cbn [run snd]. unfold setZoomLevel, zoomLevel.
      cbn [desktopInfo options with_options with_desktopInfo settings_ set_settings
           DesktopInfo_setZoomLevel frameZoomLevel].
      by rewrite QSettings_value_setValue.
    + rewrite run_desktopInfo_frame by done; rewrite Hsync.
      apply zoomLevel_same_lookup. symmetry.
      exact (settings_after_outside_group host (SetEnableAccessibility enable) w
               "view.zoomLevel" eq_refl).
    + rewrite run_desktopInfo_frame by done; rewrite Hsync.
      apply zoomLevel_same_lookup. symmetry.
      exact (settings_after_outside_group host (SetClipboardMonitoring monitoring) w
               "view.zoomLevel" eq_refl).
    + rewrite run_desktopInfo_frame by done; rewrite Hsync.
      apply zoomLevel_same_lookup. symmetry.
      exact (settings_after_outside_group host (SetIgnoreGpuBlacklist ignore) w
               "view.zoomLevel" eq_refl).
    + rewrite run_desktopInfo_frame by done; rewrite Hsync.
      apply zoomLevel_same_lookup. symmetry.
      exact (settings_after_outside_group host
               (SetDisableGpuDriverBugWorkarounds disable) w
               "view.zoomLevel" eq_refl).
    + rewrite run_desktopInfo_frame by done; rewrite Hsync.
      apply zoomLevel_same_lookup. symmetry.
      exact (settings_after_outside_group host (SetRBinDir path) w
               "view.zoomLevel" eq_refl).
    + rewrite run_desktopInfo_frame by done; rewrite Hsync.
      apply zoomLevel_same_lookup. symmetry.
      exact (settings_after_outside_group host
               (SetIgnoredUpdateVersions ignoredVersions) w
               "view.zoomLevel" eq_refl).
  - reflexivity.
  - cbn [run snd]. unfold setZoomLevel, zoomLevel.
    cbn [desktopInfo options with_options with_desktopInfo settings_ set_settings
         DesktopInfo_setZoomLevel frameZoomLevel].
    by rewrite QSettings_value_setValue.
Qed.

End Invariants.

(** ** Decimal strings *)

Lemma QString_number_not_empty (n : Z) : QString_number n ≠ EmptyString.
Proof.
  unfold QString_number. by destruct (Z.to_int n) as [[]|[]].
Qed.

Lemma constData_digits (d : Decimal.uint) (s : string) :
  constData (NilEmpty.string_of_uint d +:+ s)
    = NilEmpty.string_of_uint d +:+ constData s.
Proof.
  induction d as [|d IH|d IH|d IH|d IH|d IH|d IH|d IH|d IH|d IH|d IH];
    [reflexivity | ..];
    simpl; (rewrite IH; reflexivity).
Qed.

Lemma constData_number (n : Z) (s : string) :
  constData (QString_number n +:+ s) = QString_number n +:+ constData s.
Proof.
  unfold QString_number, NilZero.string_of_int, NilZero.string_of_uint.
  destruct (Z.to_int n) as [d | d]; destruct d; try reflexivity;
    simpl; by rewrite constData_digits.
Qed.

(** The pipe name of a generated port number has no NUL in it. *)
Lemma constData_pipe_name (n : Z) :
  constData (pipe_name (QString_number n)) = pipe_name (QString_number n).
Proof.
  unfold pipe_name.
  remember (QString_number n +:+ "-rsession") as rest eqn:Hrest.
  simpl. change (EmptyString +:+ rest) with rest.
  rewrite Hrest, constData_number. reflexivity.
Qed.

Section PortState.

Context (host : Host).

(** What [portNumber] does when no port number is cached. *)
Lemma portNumber_fresh (random : Z) (w : World) :
  portNumber_ (options w) = EmptyString →
  let port := QString_number (int_rem (std_abs host random) 40000 + 8080) in
  (portNumber host random w).1 = port ∧
  portNumber_ (options (portNumber host random w).2) = port ∧
  match platform host with
  | Windows =>
      localPeer_ (options (portNumber host random w).2) = pipe_name port ∧
      environment (portNumber host random w).2
        = <["RS_LOCAL_PEER" := pipe_name port]> (environment w)
  | _ =>
      localPeer_ (options (portNumber host random w).2) = localPeer_ (options w) ∧
      environment (portNumber host random w).2 = environment w
  end.
Proof.
  intros Hempty port. unfold portNumber. rewrite Hempty. cbn [String.length Nat.eqb].
  destruct (platform host);
    cbn [options with_options with_environment set_portNumber set_localPeer
         portNumber_ localPeer_ environment fst snd];
    try done.
  subst port.
  change (constData ("\\.\pipe\" +:+ ?p +:+ "-rsession"))
    with (constData (pipe_name p)).
  by rewrite constData_pipe_name.
Qed.

(** X4: the port number is generated once: after a call of
    [portNumber], a further call returns the same port number and
    changes nothing, whatever the random source would yield. *)
Theorem portNumber_stable (random1 random2 : Z) (w : World) :
  portNumber host random2 (portNumber host random1 w).2
    = portNumber host random1 w.
Proof.
  destruct (portNumber_ (options w)) as [|c s] eqn:Hp.
  - destruct (portNumber_fresh random1 w Hp) as (Hr & Hc & _).
    rewrite portNumber_cached; rewrite Hc.
    + rewrite <- Hr. by destruct (portNumber host random1 w).
    + apply QString_number_not_empty.
  - assert (Hne : portNumber_ (options w) ≠ EmptyString) by by rewrite Hp.
    rewrite (portNumber_cached host random1 w Hne). cbn [snd].
    by rewrite (portNumber_cached host random2 w Hne).
Qed.

End PortState.

Section Peer.

Context (host : Host).

(** Apart from the port operations, nothing touches the port number, the
    local peer or the process environment. *)
Lemma run_peer_frame (op : Op) (random : Z) (w : World) :
  op ≠ OpPortNumber → op ≠ OpNewPortNumber →
  portNumber_ (options (run host op random w).2) = portNumber_ (options w) ∧
  localPeer_ (options (run host op random w).2) = localPeer_ (options w) ∧
  environment (run host op random w).2 = environment w.
Proof.
  intros Hp Hn.
  destruct op; try done;
    rewrite ?run_scratchTempDir_state; cbn [run snd]; rewrite ?cached_state;
    try (split_and!; reflexivity).
  - unfold initFromCommandLine.
    cbn [options with_options with_desktopInfo environment].
    split_and!; [apply scanArguments_settings .. | done].
  - unfold setter, setFixedWidthFont. cbn [snd]. by destruct (QString_isEmpty font).
  - cbn [options with_options environment].
    split_and!; [apply executablePath_members .. | done].
  - cbn [options with_options environment].
    split_and!; [apply supportingFilePath_members .. | done].
  - cbn [options with_options environment].
    split_and!; [apply resourcesPath_members .. | done].
  - cbn [options with_options environment].
    split_and!; [apply wwwDocsPath_members .. | done].
  - destruct (scratchTempDir_options defaultPath w) as (-> & _ & ->). done.
  - destruct (cleanUpScratchTempDir_options w) as (-> & _ & ->). done.
Qed.

(** X5: on Windows every operation keeps the local peer synchronized
    with the port number: whenever a port number is cached, [localPeer]
    is the pipe name made from that port number and the environment
    variable RS_LOCAL_PEER holds it. *)
Theorem peer_synchronized_invariant (op : Op) (random : Z) (w : World) :
  platform host = Windows →
  peer_synchronized w →
  peer_synchronized (run host op random w).2.
Proof.
  intros Hwin Hsync.
  assert (Hfresh : ∀ w0, portNumber_ (options w0) = EmptyString →
                         peer_synchronized (portNumber host random w0).2).
  { intros w0 Hempty. pose proof (portNumber_fresh host random w0 Hempty) as H.
    cbn zeta in H. rewrite Hwin in H. destruct H as (_ & Hport & Hpeer & Henv).
    intros _. rewrite Hport, Hpeer, Henv. split; [done |].
    apply lookup_insert_eq. }
  assert (Hrest : op ≠ OpPortNumber → op ≠ OpNewPortNumber →
                  peer_synchronized (run host op random w).2).
  { intros Hp Hn.
    destruct (run_peer_frame op random w Hp Hn) as (Hport & Hpeer & Henv).
    unfold peer_synchronized. rewrite Hport, Hpeer, Henv. exact Hsync. }
  destruct op; try (apply Hrest; discriminate).
  - rewrite run_portNumber_state.
    destruct (portNumber_ (options w)) as [|c s] eqn:Hport.
    + by apply Hfresh.
    + rewrite portNumber_cached by by rewrite Hport. done.
  - rewrite run_newPortNumber_state. unfold newPortNumber. by apply Hfresh.
Qed.

(** X6: the local peer and the process environment are written by
    nothing but the generation of a port number on Windows: on any other
    platform, and for any operation that does not generate a port
    number, both are after the operation what they were before. *)
Theorem localPeer_written_on_Windows_only (op : Op) (random : Z) (w : World) :
  platform host ≠ Windows ∨ draws_random op w = false →
  localPeer_ (options (run host op random w).2) = localPeer_ (options w) ∧
  environment (run host op random w).2 = environment w.
Proof.
  intros Hcase.
  assert (Hother : ∀ w0, platform host ≠ Windows →
            localPeer_ (options (portNumber host random w0).2)
              = localPeer_ (options w0) ∧
            environment (portNumber host random w0).2 = environment w0).
  { intros w0 Hnw. unfold portNumber.
    destruct (String.length (portNumber_ (options w0)) =? 0)%nat; [| done].
    by destruct (platform host). }
  assert (Hrest : op ≠ OpPortNumber → op ≠ OpNewPortNumber →
            localPeer_ (options (run host op random w).2) = localPeer_ (options w) ∧
            environment (run host op random w).2 = environment w).
  { intros Hp Hn. by destruct (run_peer_frame op random w Hp Hn) as (_ & -> & ->). }
  destruct op; try (apply Hrest; discriminate).
  - rewrite run_portNumber_state. destruct Hcase as [Hnw | Hno].
    + by apply Hother.
    + cbn in Hno. unfold portNumber. by rewrite Hno.
  - rewrite run_newPortNumber_state. destruct Hcase as [Hnw | Hno]; [| done].
    unfold newPortNumber.
    by destruct (Hother (with_options (set_portNumber EmptyString (options w)) w) Hnw)
      as [-> ->].
Qed.

End Peer.

(** ** The main window without saved bounds *)

Section Window.

Context (host : Host).

(** X7: with no bounds saved, [restoreMainWindowBounds] never moves the
    window; it either leaves the window as it is, which it does whenever
    the desktop is at most 800 wide or at most 500 high, or gives it the
    size 1200 by 900 cut down to the desktop, which is then more than
    800 by 500 and fits the desktop. *)
Theorem restoreMainWindowBounds_default (o : Options) (win : QMainWindow) :
  settings_ o !! "mainwindow/bounds" = None →
  rect_x (geometry (restoreMainWindowBounds host o win)) = rect_x (geometry win) ∧
  rect_y (geometry (restoreMainWindowBounds host o win)) = rect_y (geometry win) ∧
  (rect_width (availableGeometry host) ≤ 800 ∨
   rect_height (availableGeometry host) ≤ 500 →
   restoreMainWindowBounds host o win = win) ∧
  (800 < rect_width (availableGeometry host) →
   500 < rect_height (availableGeometry host) →
   rect_width (geometry (restoreMainWindowBounds host o win))
     = Z.min 1200 (rect_width (availableGeometry host)) ∧
   rect_height (geometry (restoreMainWindowBounds host o win))
     = Z.min 900 (rect_height (availableGeometry host)) ∧
   800 < rect_width (geometry (restoreMainWindowBounds host o win)) ≤ 1200 ∧
   500 < rect_height (geometry (restoreMainWindowBounds host o win)) ≤ 900).
Proof.
  intros Habsent. unfold restoreMainWindowBounds, QSettings_contains.
  rewrite Habsent. cbn [QSize_boundedTo width height].
  destruct (Z.ltb_spec 800 (Z.min 1200 (rect_width (availableGeometry host))))
    as [Hw | Hw];
    destruct (Z.ltb_spec 500 (Z.min 900 (rect_height (availableGeometry host))))
      as [Hh | Hh];
    cbn [andb QMainWindow_resize geometry rect_x rect_y rect_width rect_height
         width height].
  - split_and!; [reflexivity | reflexivity | intros [Hle | Hle]; exfalso; lia |].
    intros _ _. cbn [QSize_boundedTo width height].
    split_and!; lia.
  - split_and!; [reflexivity | reflexivity | reflexivity | intros; exfalso; lia].
  - split_and!; [reflexivity | reflexivity | reflexivity | intros; exfalso; lia].
  - split_and!; [reflexivity | reflexivity | reflexivity | intros; exfalso; lia].
Qed.

End Window.

Lemma restoreMainWindowBounds_default_witness :
  rect_x (geometry (restoreMainWindowBounds (host_desktop 1024 768) (options_with ∅)
                      (mkQMainWindow (mkQRect 5 7 300 200)))) = 5 ∧
  rect_width (geometry (restoreMainWindowBounds (host_desktop 1024 768)
                          (options_with ∅)
                          (mkQMainWindow (mkQRect 5 7 300 200)))) = Z.min 1200 1024 ∧
  restoreMainWindowBounds (host_desktop 800 600) (options_with ∅)
                          (mkQMainWindow (mkQRect 5 7 300 200))
    = mkQMainWindow (mkQRect 5 7 300 200).
Proof.
  assert (Habsent : settings_ (options_with ∅) !! "mainwindow/bounds" = None)
    by reflexivity.
  destruct (restoreMainWindowBounds_default (host_desktop 1024 768) (options_with ∅)
              (mkQMainWindow (mkQRect 5 7 300 200)) Habsent)
    as (Hx & _ & _ & Hsize).
  destruct (restoreMainWindowBounds_default (host_desktop 800 600) (options_with ∅)
              (mkQMainWindow (mkQRect 5 7 300 200)) Habsent)
    as (_ & _ & Hsame & _).
  split_and!.
  - exact Hx.
  - apply Hsize; reflexivity.
  - apply Hsame. left. cbn. lia.
Defined.

(** ** Generated port numbers *)

Lemma newPortNumber_in_range_witness :
  ∃ n, 8080 ≤ n ≤ 48079 ∧ n = Z.abs (-123456) mod 40000 + 8080 ∧
       (newPortNumber (host_linux []) (-123456) world_fresh).1 = QString_number n.
Proof.
  apply (newPortNumber_in_range (host_linux []) (-123456) world_fresh).
  unfold INT_MIN, INT_MAX. lia.
Defined.

(** ** Settings that read back what was set *)

Lemma QSettings_remove_setValue key key' v (s : gmap string QVariant) :
  in_group key key' = false →
  QSettings_remove key (QSettings_setValue key' v s)
    = QSettings_setValue key' v (QSettings_remove key s).
Proof.
  intros Hg. unfold QSettings_remove, QSettings_setValue.
  by rewrite map_filter_insert_True.
Qed.

Section Stored.

Context (host : Host).

(** X9: the rendering engine, the R binary directory and the list of
    ignored update versions read back exactly what their setter stored,
    the empty string and the empty list included, and with their key
    absent the getters return the empty string, respectively the empty
    list. *)
Theorem stored_values_round_trip (o : Options) (s : QString) (l : list QString) :
  desktopRenderingEngine host (setDesktopRenderingEngine s o) = s ∧
  rBinDir host (setRBinDir s o) = s ∧
  ignoredUpdateVersions host (setIgnoredUpdateVersions l o) = l ∧
  (settings_ o !! "desktop.renderingEngine" = None →
   desktopRenderingEngine host o = EmptyString) ∧
  (settings_ o !! "RBinDir" = None → rBinDir host o = EmptyString) ∧
  (settings_ o !! "ignoredUpdateVersions" = None → ignoredUpdateVersions host o = []).
Proof.
  unfold desktopRenderingEngine, rBinDir, ignoredUpdateVersions,
    setDesktopRenderingEngine, setRBinDir, setIgnoredUpdateVersions, QSettings_value.
  cbn [settings_ set_settings]. rewrite !QSettings_value_setValue.
  split_and!; try reflexivity; intros H; by rewrite (QSettings_value_or_absent _ _ _ H).
Qed.

(** X10: among the keys that this file reads or writes, a setter changes
    the value of its own key only: removing the fixed-width font with
    its sub-settings reaches none of the other preferences. *)
Theorem setters_keep_other_preferences (s : Setter) (w : World) (key : QString) :
  In key options_keys →
  key ≠ setter_key s →
  settings_after host s w !! key = settings_ (options w) !! key.
Proof.
  intros Hin Hne. apply settings_after_outside_group.
  unfold options_keys in Hin. cbn [In] in Hin.
  repeat (destruct Hin as [<- | Hin]; [destruct s; first [reflexivity | by destruct Hne] |]).
  destruct Hin.
Qed.

(** A setter replaces the store by a function of it, which stores a
    value under the setter's key or removes the group of the fixed-width
    font key, and only [setZoomLevel] reaches the desktop frame. *)
Lemma setter_shape (s : Setter) :
  ∃ (f : gmap string QVariant → gmap string QVariant)
    (d : DesktopInfo → DesktopInfo),
    (∀ random w,
        (run host (setter_op s) random w).2
          = mkWorld (set_settings (f (settings_ (options w))) (options w))
                    (scratchPath w) (d (desktopInfo w)) (environment w)
                    (filesystem w)) ∧
    ((∃ v, f = QSettings_setValue (setter_key s) v) ∨
     (setter_key s = "font.fixedWidth" ∧ f = QSettings_remove "font.fixedWidth")) ∧
    (d = (λ x, x) ∨ setter_key s = "view.zoomLevel").
Proof.
  destruct s.
  - exists (QSettings_setValue "mainwindow/bounds" (VRect (geometry win))), (λ x, x).
    split_and!; [done | left; by eexists | by left].
  - exists (QSettings_setValue "desktop.renderingEngine" (VString engine)), (λ x, x).
    split_and!; [done | left; by eexists | by left].
  - destruct font as [|c font].
    + exists (QSettings_remove "font.fixedWidth"), (λ x, x).
      split_and!; [done | by right | by left].
    + exists (QSettings_setValue "font.fixedWidth" (VString (String c font))),
        (λ x, x).
      split_and!; [done | left; by eexists | by left].
  - exists (QSettings_setValue "view.zoomLevel" (VDouble zoomLevel0)),
      (DesktopInfo_setZoomLevel zoomLevel0).
    split_and!; [done | left; by eexists | by right].
  - exists (QSettings_setValue "view.accessibility" (VBool enable)), (λ x, x).
    split_and!; [done | left; by eexists | by left].
  - exists (QSettings_setValue "clipboard.monitoring" (VBool monitoring)), (λ x, x).
    split_and!; [done | left; by eexists | by left].
  - exists (QSettings_setValue "general.ignoreGpuBlacklist" (VBool ignore)), (λ x, x).
    split_and!; [done | left; by eexists | by left].
  - exists (QSettings_setValue "general.disableGpuDriverBugWorkarounds"
              (VBool disable)), (λ x, x).
    split_and!; [done | left; by eexists | by left].
  - exists (QSettings_setValue "RBinDir" (VString path)), (λ x, x).
    split_and!; [done | left; by eexists | by left].
  - exists (QSettings_setValue "ignoredUpdateVersions" (VStringList ignoredVersions)),
      (λ x, x).
    split_and!; [done | left; by eexists | by left].
Qed.

Lemma fixedWidth_group_other (s : Setter) :
  setter_key s ≠ "font.fixedWidth" → in_group "font.fixedWidth" (setter_key s) = false.
Proof. intros Hne. destruct s; first [reflexivity | by destruct Hne]. Qed.

(** X11: setters of different keys commute: run in either order they
    leave the same state. *)
Theorem setters_commute (s1 s2 : Setter) (w : World) :
  setter_key s1 ≠ setter_key s2 →
  (run host (setter_op s2) 0 (run host (setter_op s1) 0 w).2).2
    = (run host (setter_op s1) 0 (run host (setter_op s2) 0 w).2).2.
Proof.
  intros Hne.
  destruct (setter_shape s1) as (f1 & d1 & Hrun1 & Hf1 & Hd1).
  destruct (setter_shape s2) as (f2 & d2 & Hrun2 & Hf2 & Hd2).
  rewrite !Hrun1, !Hrun2.
  cbn [options scratchPath desktopInfo environment filesystem settings_ set_settings].
  unfold set_settings.
  cbn [settings_ runDiagnostics_ portNumber_ localPeer_ scriptsPath_ executablePath_
       supportingFilePath_ resourcesPath_].
  assert (Hf : f2 (f1 (settings_ (options w))) = f1 (f2 (settings_ (options w)))).
  { destruct Hf1 as [[v1 ->] | [Hk1 ->]], Hf2 as [[v2 ->] | [Hk2 ->]].
    - unfold QSettings_setValue. apply insert_insert_ne. congruence.
    - rewrite QSettings_remove_setValue; [done |].
      apply fixedWidth_group_other. congruence.
    - rewrite QSettings_remove_setValue; [done |].
      apply fixedWidth_group_other. congruence.
    - congruence. }
  assert (Hd : d2 (d1 (desktopInfo w)) = d1 (d2 (desktopInfo w))).
  { destruct Hd1 as [-> | Hk1], Hd2 as [-> | Hk2]; try done. congruence. }
  by rewrite Hf, Hd.
Qed.

End Stored.

(** ** Font detection *)

Section Detection.

Context (host : Host).

(** With the fixed-width filter the loop returns the first font of the
    list that the font database matches exactly and that is fixed-width,
    and the default when there is none. *)
Lemma findFirstMatchingFont_fixed (fonts : list QString) (defaultFont : QString) :
  (∃ before font after,
      fonts = (before ++ font :: after)%list ∧
      Forall (λ f, QFont_exactMatch host f && isFixedWidthFont host f = false) before ∧
      QFont_exactMatch host font = true ∧
      isFixedWidthFont host font = true ∧
      findFirstMatchingFont host fonts defaultFont true = font) ∨
  (Forall (λ f, QFont_exactMatch host f && isFixedWidthFont host f = false) fonts ∧
   findFirstMatchingFont host fonts defaultFont true = defaultFont).
Proof.
  induction fonts as [|f fonts IH]; cbn [findFirstMatchingFont negb orb].
  - right. by split.
  - destruct (QFont_exactMatch host f && isFixedWidthFont host f) eqn:Hf.
    + apply andb_true_iff in Hf as [He Hw]. rewrite He, Hw.
      left. exists [], f, fonts. by split_and!.
    + assert (Hnext : (if QFont_exactMatch host f
                       then if isFixedWidthFont host f then f
                            else findFirstMatchingFont host fonts defaultFont true
                       else findFirstMatchingFont host fonts defaultFont true)
                      = findFirstMatchingFont host fonts defaultFont true).
      { destruct (QFont_exactMatch host f); [| done].
        by destruct (isFixedWidthFont host f). }
      rewrite Hnext.
      destruct IH as [(before & font & after & -> & Hb & He & Hw & Hr) | [Hall Hr]].
      * left. exists (f :: before), font, after.
        split_and!; try done. by constructor.
      * right. split; [by constructor | done].
Qed.

Lemma fixedWidthFontList_not_generic :
  Forall (λ f, String.eqb f "monospace" = false) (fixedWidthFontList host).
Proof.
  unfold fixedWidthFontList. destruct (platform host); repeat constructor.
Qed.

(** X12: with no fixed-width font stored, [fixedWidthFont] returns,
    between double quotes, the first font of the platform's candidate
    list that the font database matches exactly and that is fixed-width,
    skipping candidates that are installed but not fixed-width; when
    there is no such candidate it returns the bare generic name. *)
Theorem fixedWidthFont_detection (o : Options) :
  QVariant_toString host (QSettings_value "font.fixedWidth" (settings_ o))
    = EmptyString →
  (∃ before font after,
      fixedWidthFontList host = (before ++ font :: after)%list ∧
      Forall (λ f, QFont_exactMatch host f && isFixedWidthFont host f = false) before ∧
      QFont_exactMatch host font = true ∧
      isFixedWidthFont host font = true ∧
      fixedWidthFont host o = dquote +:+ font +:+ dquote) ∨
  (Forall (λ f, QFont_exactMatch host f && isFixedWidthFont host f = false)
          (fixedWidthFontList host) ∧
   fixedWidthFont host o = "monospace").
Proof.
  intros Hempty. unfold fixedWidthFont. rewrite Hempty.
  cbn [negb QString_isEmpty].
  destruct (findFirstMatchingFont_fixed (fixedWidthFontList host) "monospace")
    as [(before & font & after & Hl & Hb & He & Hw & Hr) | [Hall Hr]].
  - left. exists before, font, after. split_and!; try done.
    rewrite Hr.
    assert (Hg : String.eqb font "monospace" = false).
    { pose proof fixedWidthFontList_not_generic as Hn.
      rewrite Hl in Hn. apply Forall_app in Hn as [_ Hn]. by inversion Hn. }
    by rewrite Hg.
  - right. split; [done |]. by rewrite Hr.
Qed.

Lemma proportionalFont_not_empty (o : Options) : proportionalFont host o ≠ EmptyString.
Proof.
  unfold proportionalFont.
  destruct (QVariant_toString host (QSettings_value "font.proportional" (settings_ o)))
    as [|c s]; cbn [negb QString_isEmpty]; [| done].
  by destruct (String.eqb _ _).
Qed.

Lemma fixedWidthFont_not_empty (o : Options) : fixedWidthFont host o ≠ EmptyString.
Proof.
  unfold fixedWidthFont.
  destruct (QVariant_toString host (QSettings_value "font.fixedWidth" (settings_ o)))
    as [|c s]; cbn [negb QString_isEmpty]; [| done].
  by destruct (String.eqb _ _).
Qed.

Lemma fixedWidthFont_after_set (o : Options) (f : QString) :
  f ≠ EmptyString →
  fixedWidthFont host (setFixedWidthFont f o) = dquote +:+ f +:+ dquote.
Proof.
  intros Hne. unfold fixedWidthFont, setFixedWidthFont, QSettings_value.
  rewrite (QString_isEmpty_false _ Hne). cbn [settings_ set_settings].
  rewrite QSettings_value_setValue. cbn [QVariant_toString].
  by rewrite (QString_isEmpty_false _ Hne).
Qed.

(** X13: whatever is stored and whatever is installed, neither
    [proportionalFont] nor [fixedWidthFont] returns the empty string. *)
Theorem fonts_never_empty (o : Options) :
  proportionalFont host o ≠ EmptyString ∧ fixedWidthFont host o ≠ EmptyString.
Proof.
  split; [apply proportionalFont_not_empty | apply fixedWidthFont_not_empty].
Qed.

(** X14: the fixed-width font getter is not a fixed point of its setter:
    storing what [fixedWidthFont] returns makes the getter return that
    value inside one more pair of double quotes, in every state. *)
Theorem fixedWidthFont_quotes_accumulate (o : Options) :
  fixedWidthFont host (setFixedWidthFont (fixedWidthFont host o) o)
    = dquote +:+ fixedWidthFont host o +:+ dquote ∧
  fixedWidthFont host (setFixedWidthFont (fixedWidthFont host o) o)
    ≠ fixedWidthFont host o.
Proof.
  rewrite (fixedWidthFont_after_set o _ (fixedWidthFont_not_empty o)).
  split; [done | apply quoted_differs].
Qed.

End Detection.

Lemma fixedWidthFont_detection_witness :
  (∃ before font after,
      fixedWidthFontList (host_fonts ["Ubuntu Mono"; "DejaVu Sans Mono"]
                                     ["DejaVu Sans Mono"])
        = (before ++ font :: after)%list ∧
      Forall (λ f, QFont_exactMatch (host_fonts ["Ubuntu Mono"; "DejaVu Sans Mono"]
                                                ["DejaVu Sans Mono"]) f &&
                   isFixedWidthFont (host_fonts ["Ubuntu Mono"; "DejaVu Sans Mono"]
                                                ["DejaVu Sans Mono"]) f = false)
             before ∧
      QFont_exactMatch (host_fonts ["Ubuntu Mono"; "DejaVu Sans Mono"]
                                   ["DejaVu Sans Mono"]) font = true ∧
      isFixedWidthFont (host_fonts ["Ubuntu Mono"; "DejaVu Sans Mono"]
                                   ["DejaVu Sans Mono"]) font = true ∧
      fixedWidthFont (host_fonts ["Ubuntu Mono"; "DejaVu Sans Mono"]
                                 ["DejaVu Sans Mono"]) (options_with ∅)
        = dquote +:+ font +:+ dquote) ∨
  (Forall (λ f, QFont_exactMatch (host_fonts ["Ubuntu Mono"; "DejaVu Sans Mono"]
                                             ["DejaVu Sans Mono"]) f &&
                isFixedWidthFont (host_fonts ["Ubuntu Mono"; "DejaVu Sans Mono"]
                                             ["DejaVu Sans Mono"]) f = false)
          (fixedWidthFontList (host_fonts ["Ubuntu Mono"; "DejaVu Sans Mono"]
                                          ["DejaVu Sans Mono"])) ∧
   fixedWidthFont (host_fonts ["Ubuntu Mono"; "DejaVu Sans Mono"]
                              ["DejaVu Sans Mono"]) (options_with ∅) = "monospace").
Proof.
  apply (fixedWidthFont_detection
           (host_fonts ["Ubuntu Mono"; "DejaVu Sans Mono"] ["DejaVu Sans Mono"])
           (options_with ∅)).
  reflexivity.
Defined.

Example fixedWidthFont_skips_proportional :
  fixedWidthFont (host_fonts ["Ubuntu Mono"; "DejaVu Sans Mono"] ["DejaVu Sans Mono"])
                 (options_with ∅)
    = dquote +:+ "DejaVu Sans Mono" +:+ dquote.
Proof. reflexivity. Qed.

(** ** The scratch directory, called again *)

Lemma prefix_length (a b : string) :
  String.prefix a b = true → (String.length a ≤ String.length b)%nat.
Proof.
  revert b. induction a as [|c a IH]; intros b; cbn; [lia |].
  destruct b as [|c' b]; [done |]. cbn.
  destruct (Ascii.ascii_dec c c'); [| done].
  intros H. apply IH in H. lia.
Qed.

(** A directory does not lie in its own tmp child. *)
Lemma within_childPath (dir : FilePath) (child : string) :
  within (FilePath_childPath dir child) dir = false.
Proof.
  unfold within, FilePath_childPath, FilePath_complete.
  apply orb_false_iff. split.
  - apply String.eqb_neq. intros H. apply (f_equal String.length) in H.
    rewrite !length_append in H. cbn in H. lia.
  - destruct (String.prefix _ dir) eqn:Hp; [| done].
    apply prefix_length in Hp. rewrite !length_append in Hp. cbn in Hp. lia.
Qed.

Lemma World_eq (w w' : World) :
  options w = options w' → scratchPath w = scratchPath w' →
  desktopInfo w = desktopInfo w' → environment w = environment w' →
  filesystem w = filesystem w' → w = w'.
Proof. destruct w, w'. cbn. by intros -> -> -> -> ->. Qed.

Lemma scratchTempDir_scratchPath (defaultPath : FilePath) (w : World) :
  scratchPath (scratchTempDir defaultPath w).2 = scratchPath w.
Proof.
  unfold scratchTempDir.
  destruct (negb (FilePath_empty (scratchDir w)) &&
            FilePath_exists (filesystem w) (scratchDir w)); [| done].
  destruct (FilePath_ensureDirectory (filesystem w)
              (FilePath_childPath (scratchDir w) "tmp")) as [error fs'].
  by destruct error.
Qed.

(** [ensureDirectory] only ever adds the path it is given. *)
Lemma ensureDirectory_entries (fs : FileSystem) (p : FilePath) :
  creatable (FilePath_ensureDirectory fs p).2 = creatable fs ∧
  ∀ q, q ∈ entries (FilePath_ensureDirectory fs p).2 ↔
       q ∈ entries fs ∨
       (q = p ∧ (FilePath_ensureDirectory fs p).1 = false ∧
        FilePath_exists fs p = false).
Proof.
  unfold FilePath_ensureDirectory.
  destruct (FilePath_exists fs p) eqn:He; cbn [fst snd].
  - split; [done |]. intros q. split; [by left |]. by intros [H | (_ & _ & H)].
  - destruct (creatable fs p); cbn [fst snd entries creatable].
    + split; [done |]. intros q. rewrite elem_of_union, elem_of_singleton.
      split; [intros [-> | H]; [by right | by left] | intros [H | (-> & _)]; tauto].
    + split; [done |]. intros q. split; [by left |]. by intros [H | (_ & H & _)].
Qed.

(** The filesystem that [scratchTempDir] leaves. *)
Lemma scratchTempDir_filesystem (defaultPath : FilePath) (w : World) :
  filesystem (scratchTempDir defaultPath w).2
    = (if negb (FilePath_empty (scratchDir w)) &&
          FilePath_exists (filesystem w) (scratchDir w)
       then (FilePath_ensureDirectory (filesystem w)
               (FilePath_childPath (scratchDir w) "tmp")).2
       else filesystem w).
Proof.
  unfold scratchTempDir.
  destruct (negb (FilePath_empty (scratchDir w)) &&
            FilePath_exists (filesystem w) (scratchDir w)); [| done].
  destruct (FilePath_ensureDirectory (filesystem w)
              (FilePath_childPath (scratchDir w) "tmp")) as [error fs'].
  by destruct error.
Qed.

(** X15: [scratchTempDir] removes nothing and creates at most the tmp
    child of the scratch directory: a path exists afterwards exactly
    when it existed before or is that tmp child and the call returned
    it; the options, the frame and the environment are not touched. *)
Theorem scratchTempDir_only_adds_tmp (defaultPath : FilePath) (w : World) (p : FilePath) :
  (p ∈ entries (filesystem w) → p ∈ entries (filesystem (scratchTempDir defaultPath w).2)) ∧
  (p ∈ entries (filesystem (scratchTempDir defaultPath w).2) →
   p ∈ entries (filesystem w) ∨ p = FilePath_childPath (scratchDir w) "tmp") ∧
  options (scratchTempDir defaultPath w).2 = options w.
Proof.
  rewrite scratchTempDir_filesystem.
  split_and!; [| | apply scratchTempDir_options].
  - destruct (negb _ && _); [| done].
    intros H. apply ensureDirectory_entries. by left.
  - destruct (negb _ && _); [| by left].
    intros H. apply ensureDirectory_entries in H as [H | (-> & _)]; [by left | by right].
Qed.

Lemma exists_after_add (fs : FileSystem) (p q : FilePath) :
  FilePath_exists fs p = true →
  FilePath_exists (mkFileSystem ({[q]} ∪ entries fs) (creatable fs)) p = true.
Proof.
  unfold FilePath_exists. intros H. apply andb_true_iff in H as [Hne Hin].
  rewrite Hne. cbn. apply bool_decide_eq_true. apply bool_decide_eq_true in Hin.
  apply elem_of_union. by right.
Qed.

Lemma exists_added (fs : FileSystem) (q : FilePath) :
  FilePath_empty q = false →
  FilePath_exists (mkFileSystem ({[q]} ∪ entries fs) (creatable fs)) q = true.
Proof.
  unfold FilePath_exists. intros ->. cbn. apply bool_decide_eq_true.
  apply elem_of_union. left. by apply elem_of_singleton.
Qed.

(** X16: [scratchTempDir] is idempotent: called again with the same
    default it returns the same path and leaves the state that the
    first call left. *)
Theorem scratchTempDir_idempotent (defaultPath : FilePath) (w : World) :
  scratchTempDir defaultPath (scratchTempDir defaultPath w).2
    = scratchTempDir defaultPath w.
Proof.
  unfold scratchTempDir at 2 3. unfold FilePath_ensureDirectory, scratchDir.
  destruct (negb (FilePath_empty (constData (scratchPath w))) &&
            FilePath_exists (filesystem w) (constData (scratchPath w))) eqn:Hv.
  - apply andb_true_iff in Hv as Hv'. destruct Hv' as [_ Hdir].
    destruct (FilePath_exists (filesystem w)
                (FilePath_childPath (constData (scratchPath w)) "tmp")) eqn:Htmp;
      [| destruct (creatable (filesystem w)
                     (FilePath_childPath (constData (scratchPath w)) "tmp")) eqn:Hc];
      cbn [negb snd]; unfold scratchTempDir, FilePath_ensureDirectory, scratchDir;
      cbn [filesystem with_filesystem scratchPath entries creatable].
    + by rewrite Hv, Htmp.
    + rewrite (exists_after_add _ _ _ Hdir).
      rewrite (exists_added _ _ (childPath_not_empty _ "tmp")).
      apply andb_true_iff in Hv as [-> _]. done.
    + by rewrite Hv, Htmp, Hc.
  - cbn [snd]. unfold scratchTempDir, scratchDir. by rewrite Hv.
Qed.

Lemma filter_outside_add (p : FilePath) (X : gset string) :
  filter (λ q, within p q = false) ({[p]} ∪ X) = filter (λ q, within p q = false) X.
Proof.
  apply set_eq. intros q. rewrite !elem_of_filter, elem_of_union, elem_of_singleton.
  split; [| tauto]. intros [Hq [-> | Hin]]; [| done].
  by rewrite within_refl in Hq.
Qed.

Lemma filter_outside_twice (p : FilePath) (X : gset string) :
  filter (λ q, within p q = false) (filter (λ q, within p q = false) X)
    = filter (λ q, within p q = false) X.
Proof. apply set_eq. intros q. rewrite !elem_of_filter. tauto. Qed.

Lemma exists_outside (p q : FilePath) (X : gset string) (c : string → bool) :
  within p q = false →
  FilePath_exists (mkFileSystem (filter (λ q, within p q = false) X) c) q
    = FilePath_exists (mkFileSystem X c) q.
Proof.
  intros Hq. unfold FilePath_exists. cbn [entries]. f_equal.
  apply bool_decide_ext. rewrite elem_of_filter. tauto.
Qed.

Lemma exists_removed (p : FilePath) (X : gset string) (c : string → bool) :
  FilePath_exists (mkFileSystem (filter (λ q, within p q = false) X) c) p = false.
Proof.
  unfold FilePath_exists. cbn [entries]. apply andb_false_iff. right.
  apply bool_decide_eq_false. rewrite elem_of_filter, within_refl. by intros [H _].
Qed.

Lemma FileSystem_eta (fs : FileSystem) : mkFileSystem (entries fs) (creatable fs) = fs.
Proof. by destruct fs. Qed.

(** What [cleanUpScratchTempDir] does, in one step: when the scratch
    directory exists and its tmp child exists or can be created, every
    path in the tmp child goes; otherwise nothing changes. *)
Lemma cleanUpScratchTempDir_step (w : World) :
  cleanUpScratchTempDir w
    = with_filesystem
        (mkFileSystem
           (if negb (FilePath_empty (scratchDir w)) &&
               FilePath_exists (filesystem w) (scratchDir w) &&
               (FilePath_exists (filesystem w) (FilePath_childPath (scratchDir w) "tmp")
                || creatable (filesystem w) (FilePath_childPath (scratchDir w) "tmp"))
            then filter (λ q, within (FilePath_childPath (scratchDir w) "tmp") q = false)
                        (entries (filesystem w))
            else entries (filesystem w))
           (creatable (filesystem w)))
        w.
Proof.
  unfold cleanUpScratchTempDir, scratchTempDir, FilePath_ensureDirectory.
  destruct (negb (FilePath_empty (scratchDir w)) &&
            FilePath_exists (filesystem w) (scratchDir w)) eqn:Hv; cbn [andb].
  - destruct (FilePath_exists (filesystem w)
                (FilePath_childPath (scratchDir w) "tmp")) eqn:Htmp; cbn [orb negb].
    + rewrite childPath_not_empty. cbn [negb filesystem with_filesystem].
      unfold FilePath_removeIfExists. by rewrite Htmp.
    + destruct (creatable (filesystem w)
                  (FilePath_childPath (scratchDir w) "tmp")) eqn:Hc; cbn [negb].
      * rewrite childPath_not_empty. cbn [negb filesystem with_filesystem].
        unfold FilePath_removeIfExists.
        rewrite (exists_added _ _ (childPath_not_empty _ "tmp")).
        cbn [entries creatable]. by rewrite filter_outside_add.
      * cbn [FilePath_empty QString_isEmpty negb].
        unfold with_filesystem. cbn [options scratchPath desktopInfo environment].
        by rewrite FileSystem_eta.
  - cbn [FilePath_empty QString_isEmpty negb].
    unfold with_filesystem. rewrite FileSystem_eta. by destruct w.
Qed.

(** X17: [cleanUpScratchTempDir] is idempotent, and it never removes the
    scratch directory itself: a scratch directory that exists still
    exists after the clean-up. *)
Theorem cleanUpScratchTempDir_idempotent (w : World) :
  cleanUpScratchTempDir (cleanUpScratchTempDir w) = cleanUpScratchTempDir w ∧
  (FilePath_exists (filesystem w) (scratchDir w) = true →
   FilePath_exists (filesystem (cleanUpScratchTempDir w)) (scratchDir w) = true).
Proof.
  assert (Hkeep : FilePath_exists (filesystem (cleanUpScratchTempDir w)) (scratchDir w)
                  = FilePath_exists (filesystem w) (scratchDir w)).
  { rewrite cleanUpScratchTempDir_step. cbn [filesystem with_filesystem].
    destruct (_ && _ && _).
    - rewrite exists_outside by apply within_childPath. by rewrite FileSystem_eta.
    - by rewrite FileSystem_eta. }
  split; [| by rewrite Hkeep].
  pose proof (cleanUpScratchTempDir_step w) as Hstep.
  destruct (negb (FilePath_empty (scratchDir w)) &&
            FilePath_exists (filesystem w) (scratchDir w) &&
            (FilePath_exists (filesystem w) (FilePath_childPath (scratchDir w) "tmp")
             || creatable (filesystem w) (FilePath_childPath (scratchDir w) "tmp")))
    eqn:Husable;
    rewrite Hstep, cleanUpScratchTempDir_step; unfold scratchDir in *;
    cbn [scratchPath filesystem with_filesystem entries creatable options
         desktopInfo environment].
  - rewrite filter_outside_twice.
    match goal with
    | |- context [if ?b then _ else _] => by destruct b
    end.
  - by rewrite FileSystem_eta, Husable, FileSystem_eta.
Qed.

(** ** Cached paths *)

Lemma complete_not_empty (p : FilePath) (child : string) :
  FilePath_empty (FilePath_complete p child) = false.
Proof. by destruct p. Qed.

Lemma FilePath_empty_false (p : FilePath) : p ≠ EmptyString → FilePath_empty p = false.
Proof. by destruct p. Qed.

Section Cached.

Context (host : Host).

Lemma executablePath_again (o : Options) :
  executablePath host (executablePath host o).2 = executablePath host o.
Proof.
  unfold executablePath. cbn [snd].
  destruct (FilePath_empty (executablePath_ o)) eqn:He; [| by rewrite He].
  destruct (system_executablePath host (argv0 host)) as [p|] eqn:Hs; [| by rewrite He].
  cbn [executablePath_ set_executablePath].
  by destruct (FilePath_empty p).
Qed.

Lemma supportingFilePath_again (fs : FileSystem) (o : Options) :
  supportingFilePath host fs (supportingFilePath host fs o).2
    = supportingFilePath host fs o.
Proof.
  unfold supportingFilePath. cbn [snd].
  destruct (FilePath_empty (supportingFilePath_ o)) eqn:He; [| by rewrite He].
  destruct (system_installPath host ".." (argv0 host)) as [p|] eqn:Hs;
    destruct (platform host) eqn:Hp;
    cbn [supportingFilePath_ set_supportingFilePath];
    rewrite ?He;
    try (by destruct (FilePath_empty p));
    try reflexivity.
  - destruct (FilePath_exists fs (FilePath_complete p "Info.plist")) eqn:Hx;
      cbn [supportingFilePath_ set_supportingFilePath].
    + by rewrite complete_not_empty.
    + destruct (FilePath_empty p); [| done].
      cbn [supportingFilePath_ set_supportingFilePath]. by rewrite ?Hx.
  - destruct (FilePath_exists fs (FilePath_complete (supportingFilePath_ o)
                                    "Info.plist")) eqn:Hx;
      cbn [supportingFilePath_ set_supportingFilePath].
    + by rewrite complete_not_empty.
    + by rewrite ?He, ?Hx.
Qed.

(** X18: the executable path and the supporting-files path are looked up
    until a non-empty path is found and then kept: a second call returns
    the same path and leaves the state of the first, and a non-empty
    cached path is returned as it is, without asking the system or the
    filesystem. *)
Theorem cached_paths_stable (fs fs' : FileSystem) (o : Options) :
  executablePath host (executablePath host o).2 = executablePath host o ∧
  supportingFilePath host fs (supportingFilePath host fs o).2
    = supportingFilePath host fs o ∧
  (executablePath_ o ≠ EmptyString →
   executablePath host o = (executablePath_ o, o)) ∧
  (supportingFilePath_ o ≠ EmptyString →
   supportingFilePath host fs' o = (supportingFilePath_ o, o)).
Proof.
  split_and!.
  - apply executablePath_again.
  - apply supportingFilePath_again.
  - intros Hne. unfold executablePath. by rewrite (FilePath_empty_false _ Hne).
  - intros Hne. unfold supportingFilePath. by rewrite (FilePath_empty_false _ Hne).
Qed.

Lemma resourcesPath_cache_not_empty (fs : FileSystem) (o : Options) :
  resourcesPath_ (resourcesPath host fs o).2 = (resourcesPath host fs o).1 ∧
  FilePath_empty (resourcesPath host fs o).1 = false.
Proof.
  unfold resourcesPath. cbn [fst snd].
  destruct (FilePath_empty (resourcesPath_ o)) eqn:He; [| done].
  destruct (FilePath_exists fs (FilePath_complete (scriptsPath o) "resources")).
  - cbn [resourcesPath_ set_resourcesPath]. by rewrite complete_not_empty.
  - destruct (supportingFilePath host fs o) as [supporting o'].
    cbn [resourcesPath_ set_resourcesPath]. by rewrite complete_not_empty.
Qed.

(** X19: [resourcesPath] never returns the empty path, and its first
    answer is final: after one call, neither a new scripts path nor a
    different filesystem changes what it returns. *)
Theorem resourcesPath_final (fs fs' : FileSystem) (o : Options) (scripts : FilePath) :
  (resourcesPath host fs o).1 ≠ EmptyString ∧
  (resourcesPath host fs' (setScriptsPath scripts (resourcesPath host fs o).2)).1
    = (resourcesPath host fs o).1.
Proof.
  destruct (resourcesPath_cache_not_empty fs o) as [Hcache Hne].
  split.
  - intros He. by rewrite He in Hne.
  - unfold resourcesPath at 1. cbn [fst].
    unfold setScriptsPath. cbn [resourcesPath_ set_scriptsPath].
    by rewrite Hcache, Hne.
Qed.

(** X20: with no resources path cached, [resourcesPath] prefers the
    developer layout: when the scripts path has a resources child, that
    child is returned and the install path is not looked up; otherwise
    the resources child of the supporting-files path is returned. *)
Theorem resourcesPath_layout (fs : FileSystem) (o : Options) :
  resourcesPath_ o = EmptyString →
  (FilePath_exists fs (FilePath_complete (scriptsPath o) "resources") = true →
   (resourcesPath host fs o).1 = FilePath_complete (scriptsPath o) "resources" ∧
   supportingFilePath_ (resourcesPath host fs o).2 = supportingFilePath_ o) ∧
  (FilePath_exists fs (FilePath_complete (scriptsPath o) "resources") = false →
   (resourcesPath host fs o).1
     = FilePath_complete (supportingFilePath host fs o).1 "resources" ∧
   supportingFilePath_ (resourcesPath host fs o).2 = (supportingFilePath host fs o).1).
Proof.
  intros Hempty. unfold resourcesPath. rewrite Hempty.
  cbn [FilePath_empty QString_isEmpty fst snd].
  split; intros Hx; rewrite Hx; [done |].
  assert (Hs : supportingFilePath_ (supportingFilePath host fs o).2
               = (supportingFilePath host fs o).1) by done.
  destruct (supportingFilePath host fs o) as [supporting o']. by cbn in *.
Qed.

(** X21: [wwwDocsPath] tries its candidates below the supporting-files
    path in order and returns the first that exists: www/docs, then
    ../gwt/www/docs, and the last candidate whether it exists or not,
    which on macOS is ../../../../../gwt/www/docs.  So the path it
    returns fails to exist only when no candidate exists. *)
Theorem wwwDocsPath_first_existing (fs : FileSystem) (o : Options) :
  let supporting := (supportingFilePath host fs o).1 in
  (FilePath_exists fs (FilePath_complete supporting "www/docs") = true →
   (wwwDocsPath host fs o).1 = FilePath_complete supporting "www/docs") ∧
  (FilePath_exists fs (FilePath_complete supporting "www/docs") = false →
   (FilePath_exists fs (FilePath_complete supporting "../gwt/www/docs") = true ∨
    platform host ≠ MacOS) →
   (wwwDocsPath host fs o).1 = FilePath_complete supporting "../gwt/www/docs") ∧
  (FilePath_exists fs (FilePath_complete supporting "www/docs") = false →
   FilePath_exists fs (FilePath_complete supporting "../gwt/www/docs") = false →
   platform host = MacOS →
   (wwwDocsPath host fs o).1
     = FilePath_complete supporting "../../../../../gwt/www/docs") ∧
  (FilePath_exists fs (wwwDocsPath host fs o).1 = false →
   FilePath_exists fs (FilePath_complete supporting "www/docs") = false ∧
   FilePath_exists fs (FilePath_complete supporting "../gwt/www/docs") = false ∧
   (platform host = MacOS →
    FilePath_exists fs (FilePath_complete supporting "../../../../../gwt/www/docs")
      = false)) ∧
  (wwwDocsPath host fs o).2 = (supportingFilePath host fs o).2.
Proof.
  unfold wwwDocsPath.
  destruct (supportingFilePath host fs o) as [supporting o']. cbn [fst snd].
  split_and!.
  - intros H1. rewrite H1. cbn [negb].
    destruct (platform host); try done. by rewrite H1.
  - intros H1 H2. rewrite H1. cbn [negb].
    destruct (platform host); try done.
    destruct H2 as [H2 | H2]; [by rewrite H2 | done].
  - intros H1 H2 Hp. rewrite H1, Hp. cbn [negb]. by rewrite H2.
  - destruct (FilePath_exists fs (FilePath_complete supporting "www/docs")) eqn:H1;
      cbn [negb].
    + destruct (platform host); try (intros H; congruence).
      rewrite H1. cbn [negb]. intros H; congruence.
    + destruct (platform host) eqn:Hp; try (intros H; by split_and!).
      destruct (FilePath_exists fs (FilePath_complete supporting "../gwt/www/docs"))
        eqn:H2; cbn [negb]; intros H; [congruence | by split_and!].
  - done.
Qed.

End Cached.

(** ** The helper executables *)

Lemma prefix_append (a b : string) : String.prefix a (a +:+ b) = true.
Proof.
  induction a as [|c a IH]; [by destruct b |].
  change (String c a +:+ b) with (String c (a +:+ b)).
  cbn [String.prefix].
  destruct (Ascii.ascii_dec c c) as [_ | Hne]; [exact IH | by destruct Hne].
Qed.

Lemma append_assoc3 (a b c : string) : (a +:+ b) +:+ c = a +:+ (b +:+ c).
Proof.
  induction a as [|x a IH]; [reflexivity |].
  change (String x ((a +:+ b) +:+ c) = String x (a +:+ (b +:+ c))).
  by rewrite IH.
Qed.

Lemma within_complete (p : FilePath) (child : string) :
  within p (FilePath_complete p child) = true.
Proof.
  unfold within, FilePath_complete. apply orb_true_iff. right.
  rewrite <- append_assoc3. apply prefix_append.
Qed.

Lemma within_complete_twice (p : FilePath) (child child' : string) :
  within p (FilePath_complete (FilePath_complete p child) child') = true.
Proof.
  unfold within, FilePath_complete. apply orb_true_iff. right.
  rewrite (append_assoc3 p ("/" +:+ child) ("/" +:+ child')).
  change (("/" +:+ child) +:+ "/" +:+ child')
    with ("/" +:+ (child +:+ "/" +:+ child')).
  rewrite <- (append_assoc3 p "/"). apply prefix_append.
Qed.

Lemma filename_from_separator (acc p rest : string) :
  filename_from acc (p +:+ String "/" rest) = filename_from EmptyString rest.
Proof.
  revert acc. induction p as [|c p IH]; intros acc; simpl; [done |].
  by destruct (Ascii.eqb c "/").
Qed.

Lemma filename_complete (p : FilePath) (child : string) :
  FilePath_filename (FilePath_complete p child) = FilePath_filename child.
Proof. unfold FilePath_filename, FilePath_complete. apply filename_from_separator. Qed.

(** X22: the helper executables lie below the scripts path and carry
    their own file names, in the developer layout (scripts path named
    desktop) as in the installed one. *)
Theorem helper_executables_below_scripts (o : Options) :
  within (scriptsPath o) (urlopenerPath o) = true ∧
  FilePath_filename (urlopenerPath o) = "urlopener.exe" ∧
  within (scriptsPath o) (rsinversePath o) = true ∧
  FilePath_filename (rsinversePath o) = "rsinverse.exe".
Proof.
  unfold urlopenerPath, rsinversePath. rewrite !filename_complete.
  destruct (String.eqb (FilePath_filename (scriptsPath o)) "desktop");
    split_and!; first [reflexivity | apply within_complete | apply within_complete_twice].
Qed.

Example urlopenerPath_developer :
  urlopenerPath (set_scriptsPath "C:/rstudio/src/cpp/desktop" (options_with ∅))
    = "C:/rstudio/src/cpp/desktop/urlopener/urlopener.exe".
Proof. reflexivity. Qed.

Example rsinversePath_installed :
  rsinversePath (set_scriptsPath "C:/Program Files/RStudio/bin" (options_with ∅))
    = "C:/Program Files/RStudio/bin/rsinverse.exe".
Proof. reflexivity. Qed.

(** ** The further properties on concrete states *)

Lemma initFromCommandLine_diagnostics_witness :
  runDiagnostics_ (options (initFromCommandLine (host_linux [])
                              ["rstudio"; "--run-diagnostics"] world_fresh)) = true ∧
  runDiagnostics_ (options (initFromCommandLine (host_linux [])
                              ["--run-diagnostics"] world_fresh)) ≠ true.
Proof.
  split.
  - apply (proj1 (initFromCommandLine_diagnostics (host_linux [])
                    ["rstudio"; "--run-diagnostics"] world_fresh)).
    right. left. reflexivity.
  - intros H.
    apply (proj1 (initFromCommandLine_diagnostics (host_linux [])
                    ["--run-diagnostics"] world_fresh)) in H.
    destruct H as [H | H]; [discriminate H | destruct H].
Defined.

Lemma run_keeps_settings_witness :
  settings_ (options (run (host_linux []) OpNewPortNumber 3
                          (world_with settings_saved EmptyString [] (λ _, true))).2)
    = settings_ (options (world_with settings_saved EmptyString [] (λ _, true))).
Proof.
  apply (run_keeps_settings (host_linux []) OpNewPortNumber 3
           (world_with settings_saved EmptyString [] (λ _, true))).
  intros s. destruct s; discriminate.
Defined.

Lemma zoom_synchronized_invariant_witness :
  zoom_synchronized (host_linux [])
    (run (host_linux []) (OpSetEnableAccessibility true) 0 world_fresh).2.
Proof.
  apply (zoom_synchronized_invariant (host_linux []) (OpSetEnableAccessibility true)
           0 world_fresh).
  left. reflexivity.
Defined.

Lemma peer_synchronized_invariant_witness :
  peer_synchronized (run (host_windows []) OpPortNumber 12345 world_fresh).2.
Proof.
  apply (peer_synchronized_invariant (host_windows []) OpPortNumber 12345 world_fresh).
  - reflexivity.
  - intros H. by destruct H.
Defined.

Lemma localPeer_written_on_Windows_only_witness :
  localPeer_ (options (run (host_linux []) OpNewPortNumber 12345 world_fresh).2)
    = localPeer_ (options world_fresh) ∧
  environment (run (host_linux []) OpNewPortNumber 12345 world_fresh).2
    = environment world_fresh.
Proof.
  apply (localPeer_written_on_Windows_only (host_linux []) OpNewPortNumber 12345
           world_fresh).
  left. discriminate.
Defined.

Lemma stored_values_round_trip_witness :
  desktopRenderingEngine (host_linux []) (options_with ∅) = EmptyString ∧
  rBinDir (host_linux []) (options_with ∅) = EmptyString ∧
  ignoredUpdateVersions (host_linux []) (options_with ∅) = [].
Proof.
  destruct (stored_values_round_trip (host_linux []) (options_with ∅) "software" [])
    as (_ & _ & _ & He & Hr & Hi).
  split_and!; [apply He | apply Hr | apply Hi]; reflexivity.
Defined.

Lemma setters_keep_other_preferences_witness :
  settings_after (host_linux []) (SetFixedWidthFont EmptyString)
                 (world_with settings_saved EmptyString [] (λ _, true))
    !! "view.zoomLevel"
    = settings_ (options (world_with settings_saved EmptyString [] (λ _, true)))
        !! "view.zoomLevel".
Proof.
  apply (setters_keep_other_preferences (host_linux []) (SetFixedWidthFont EmptyString)
           (world_with settings_saved EmptyString [] (λ _, true)) "view.zoomLevel").
  - cbn. tauto.
  - discriminate.
Defined.

Lemma setters_commute_witness :
  (run (host_linux []) (setter_op (SetFixedWidthFont EmptyString)) 0
       (run (host_linux []) (setter_op (SetZoomLevel 2%float)) 0 world_fresh).2).2
    = (run (host_linux []) (setter_op (SetZoomLevel 2%float)) 0
           (run (host_linux []) (setter_op (SetFixedWidthFont EmptyString)) 0
                world_fresh).2).2.
Proof.
  apply (setters_commute (host_linux []) (SetZoomLevel 2%float)
           (SetFixedWidthFont EmptyString) world_fresh).
  discriminate.
Defined.

Lemma scratchTempDir_only_adds_tmp_witness :
  "/scratch" ∈ entries (filesystem
                 (scratchTempDir "/tmp"
                    (world_with ∅ "/scratch" ["/scratch"] (λ _, true))).2).
Proof.
  apply (scratchTempDir_only_adds_tmp "/tmp"
           (world_with ∅ "/scratch" ["/scratch"] (λ _, true)) "/scratch").
  vm_compute. reflexivity.
Defined.

Lemma cleanUpScratchTempDir_idempotent_witness :
  FilePath_exists
    (filesystem (cleanUpScratchTempDir
                   (world_with ∅ "/scratch" ["/scratch"; "/scratch/tmp"] (λ _, true))))
    (scratchDir (world_with ∅ "/scratch" ["/scratch"; "/scratch/tmp"] (λ _, true)))
    = true.
Proof.
  apply (cleanUpScratchTempDir_idempotent
           (world_with ∅ "/scratch" ["/scratch"; "/scratch/tmp"] (λ _, true))).
  reflexivity.
Defined.

Lemma cached_paths_stable_witness :
  executablePath (host_linux [])
                 (set_executablePath "/usr/lib/rstudio/bin/rstudio" (options_with ∅))
    = ("/usr/lib/rstudio/bin/rstudio",
       set_executablePath "/usr/lib/rstudio/bin/rstudio" (options_with ∅)) ∧
  supportingFilePath (host_linux []) (mkFileSystem ∅ (λ _, true))
                     (set_supportingFilePath "/usr/lib/rstudio" (options_with ∅))
    = ("/usr/lib/rstudio", set_supportingFilePath "/usr/lib/rstudio" (options_with ∅)).
Proof.
  split.
  - apply (cached_paths_stable (host_linux []) (mkFileSystem ∅ (λ _, true))
             (mkFileSystem ∅ (λ _, true))
             (set_executablePath "/usr/lib/rstudio/bin/rstudio" (options_with ∅))).
    discriminate.
  - apply (cached_paths_stable (host_linux []) (mkFileSystem ∅ (λ _, true))
             (mkFileSystem ∅ (λ _, true))
             (set_supportingFilePath "/usr/lib/rstudio" (options_with ∅))).
    discriminate.
Defined.

Lemma resourcesPath_layout_witness :
  (resourcesPath (host_linux [])
                 (mkFileSystem (list_to_set ["/src/desktop/resources"]) (λ _, true))
                 (set_scriptsPath "/src/desktop" (options_with ∅))).1
    = "/src/desktop/resources".
Proof.
  apply (resourcesPath_layout (host_linux [])
           (mkFileSystem (list_to_set ["/src/desktop/resources"]) (λ _, true))
           (set_scriptsPath "/src/desktop" (options_with ∅))).
  - reflexivity.
  - reflexivity.
Defined.

Lemma wwwDocsPath_first_existing_witness :
  (wwwDocsPath (host_macos (Some "/Applications/RStudio.app/Contents"))
               (mkFileSystem
                  (list_to_set
                     ["/Applications/RStudio.app/Contents/Info.plist";
                      "/Applications/RStudio.app/Contents/Resources/www/docs"])
                  (λ _, true))
               (options_with ∅)).1
    = "/Applications/RStudio.app/Contents/Resources/www/docs".
Proof.
  pose proof (wwwDocsPath_first_existing
                (host_macos (Some "/Applications/RStudio.app/Contents"))
                (mkFileSystem
                   (list_to_set
                      ["/Applications/RStudio.app/Contents/Info.plist";
                       "/Applications/RStudio.app/Contents/Resources/www/docs"])
                   (λ _, true))
                (options_with ∅)) as H.
  cbv zeta in H. destruct H as (Hfirst & _).
  etransitivity; [apply Hfirst; reflexivity | reflexivity].
Defined.

Example portNumber_on_Windows :
  localPeer (options (portNumber (host_windows []) 0 world_fresh).2)
    = "\\.\pipe\8080-rsession" ∧
  environment (portNumber (host_windows []) 0 world_fresh).2 !! "RS_LOCAL_PEER"
    = Some "\\.\pipe\8080-rsession".
Proof. split; reflexivity. Qed.

Example cleanUp_creates_then_removes :
  entries (filesystem (cleanUpScratchTempDir
                         (world_with ∅ "/scratch" ["/scratch"] (λ _, true))))
    = {["/scratch"]}.
Proof. vm_compute. reflexivity. Qed.

(** * Determinism *)

Lemma exists_same_entries (fs1 fs2 : FileSystem) (p : FilePath) :
  entries fs1 = entries fs2 → FilePath_exists fs1 p = FilePath_exists fs2 p.
Proof. intros H. unfold FilePath_exists. by rewrite H. Qed.

Section SameHost.

Context (h1 h2 : Host) (Hhost : same_host h1 h2).

Lemma QVariant_toBool_same (v : QVariant) : QVariant_toBool h1 v = QVariant_toBool h2 v.
Proof. destruct v; try reflexivity; apply Hhost. Qed.

Lemma QVariant_toDouble_same (v : QVariant) :
  QVariant_toDouble h1 v = QVariant_toDouble h2 v.
Proof. destruct v; try reflexivity; apply Hhost. Qed.

Lemma QVariant_toString_same (v : QVariant) :
  QVariant_toString h1 v = QVariant_toString h2 v.
Proof. destruct v; try reflexivity; apply Hhost. Qed.

Lemma QVariant_toStringList_same (v : QVariant) :
  QVariant_toStringList h1 v = QVariant_toStringList h2 v.
Proof. destruct v; try reflexivity; apply Hhost. Qed.

Lemma QVariant_toRect_same (v : QVariant) : QVariant_toRect h1 v = QVariant_toRect h2 v.
Proof. destruct v; try reflexivity; apply Hhost. Qed.

(** The loop asks the font database about the fonts of its list only. *)
Lemma findFirstMatchingFont_same (fonts : list QString) (defaultFont : QString)
      (fixedWidthOnly : bool) :
  Forall (λ f, QFont_exactMatch h1 f = QFont_exactMatch h2 f) fonts →
  (fixedWidthOnly = true →
   Forall (λ f, isFixedWidthFont h1 f = isFixedWidthFont h2 f) fonts) →
  findFirstMatchingFont h1 fonts defaultFont fixedWidthOnly
    = findFirstMatchingFont h2 fonts defaultFont fixedWidthOnly.
Proof.
  induction fonts as [|f fonts IH]; intros Hexact Hfixed; [reflexivity |].
  cbn [findFirstMatchingFont].
  inversion Hexact as [|? ? He Hexact']; subst.
  rewrite <- He, IH; [| done |].
  - destruct fixedWidthOnly; cbn [negb orb]; [| done].
    specialize (Hfixed eq_refl). inversion Hfixed as [|? ? Hf ?]; subst.
    by rewrite Hf.
  - intros Hb. specialize (Hfixed Hb). by inversion Hfixed.
Qed.

Lemma proportionalFont_same (o : Options) :
  proportionalFont h1 o = proportionalFont h2 o.
Proof.
  destruct Hhost as (Hp & _ & _ & _ & _ & _ & _ & Hexact & _).
  apply Forall_app in Hexact as [Hexact _].
  unfold proportionalFont. rewrite QVariant_toString_same.
  rewrite (findFirstMatchingFont_same _ _ false Hexact) by done.
  unfold proportionalFontList. by rewrite Hp.
Qed.

Lemma fixedWidthFont_same (o : Options) : fixedWidthFont h1 o = fixedWidthFont h2 o.
Proof.
  destruct Hhost as (Hp & _ & _ & _ & _ & _ & _ & Hexact & Hfixed & _).
  apply Forall_app in Hexact as [_ Hexact].
  unfold fixedWidthFont. rewrite QVariant_toString_same.
  rewrite (findFirstMatchingFont_same _ _ true Hexact) by done.
  unfold fixedWidthFontList. by rewrite Hp.
Qed.

Lemma restoreMainWindowBounds_same (o : Options) (win : QMainWindow) :
  restoreMainWindowBounds h1 o win = restoreMainWindowBounds h2 o win.
Proof.
  destruct Hhost as (_ & _ & _ & _ & _ & _ & _ & _ & _ & Hw & Hh & _).
  unfold restoreMainWindowBounds. by rewrite QVariant_toRect_same, Hw, Hh.
Qed.

Lemma scanArguments_same (arguments : list QString) (o : Options) :
  scanArguments h1 arguments o = scanArguments h2 arguments o.
Proof.
  destruct Hhost as (_ & Hk & _).
  revert o. induction arguments as [|arg rest IH]; intros o; [reflexivity |].
  cbn [scanArguments]. by rewrite Hk, IH.
Qed.

Lemma std_abs_same (x : Z) : std_abs h1 x = std_abs h2 x.
Proof. unfold std_abs. by rewrite (proj2 (proj2 (proj2 (proj2 (proj2 (proj2 (proj2
         (proj2 (proj2 (proj2 (proj2 (proj2 (proj2 Hhost))))))))))))). Qed.

Lemma executablePath_same (o : Options) : executablePath h1 o = executablePath h2 o.
Proof.
  destruct Hhost as (_ & _ & _ & _ & _ & _ & _ & _ & _ & _ & _ & He & _).
  unfold executablePath. by rewrite He.
Qed.

Lemma supportingFilePath_same (fs1 fs2 : FileSystem) (o : Options) :
  entries fs1 = entries fs2 →
  supportingFilePath h1 fs1 o = supportingFilePath h2 fs2 o.
Proof.
  destruct Hhost as (Hp & _ & _ & _ & _ & _ & _ & _ & _ & _ & _ & _ & Hi & _).
  intros Hfs. unfold supportingFilePath. rewrite Hi, Hp.
  by rewrite (exists_same_entries fs1 fs2 _ Hfs).
Qed.

Lemma resourcesPath_same (fs1 fs2 : FileSystem) (o : Options) :
  entries fs1 = entries fs2 → resourcesPath h1 fs1 o = resourcesPath h2 fs2 o.
Proof.
  intros Hfs. unfold resourcesPath.
  rewrite (exists_same_entries fs1 fs2 _ Hfs).
  by rewrite (supportingFilePath_same fs1 fs2 o Hfs).
Qed.

Lemma wwwDocsPath_same (fs1 fs2 : FileSystem) (o : Options) :
  entries fs1 = entries fs2 → wwwDocsPath h1 fs1 o = wwwDocsPath h2 fs2 o.
Proof.
  intros Hfs. unfold wwwDocsPath.
  rewrite (supportingFilePath_same fs1 fs2 o Hfs), (proj1 Hhost).
  destruct (supportingFilePath h2 fs2 o) as [supporting o'].
  by rewrite !(exists_same_entries fs1 fs2 _ Hfs).
Qed.

End SameHost.

Section SameRun.

Context (h1 h2 : Host) (Hhost : same_host h1 h2).

Lemma portNumber_same (random1 random2 : Z) (w1 w2 : World) :
  same_state w1 w2 →
  (draws_random OpPortNumber w1 = true → random1 = random2) →
  (portNumber h1 random1 w1).1 = (portNumber h2 random2 w2).1 ∧
  same_state (portNumber h1 random1 w1).2 (portNumber h2 random2 w2).2.
Proof.
  intros (Ho & Hs & He & Hf) Hdraw. unfold portNumber.
  cbn [draws_random] in Hdraw. rewrite <- Ho.
  destruct (String.length (portNumber_ (options w1)) =? 0)%nat.
  - rewrite (Hdraw eq_refl), (std_abs_same h1 h2 Hhost), (proj1 Hhost).
    destruct (platform h2);
      unfold same_state; cbn [fst snd options scratchPath environment filesystem
                              with_options with_environment];
      rewrite <- ?Ho, <- ?He; split_and!; try done.
  - by split.
Qed.

Lemma scratchTempDir_same (defaultPath : FilePath) (w1 w2 : World) :
  same_state w1 w2 →
  (scratchTempDir defaultPath w1).1 = (scratchTempDir defaultPath w2).1 ∧
  same_state (scratchTempDir defaultPath w1).2 (scratchTempDir defaultPath w2).2.
Proof.
  intros (Ho & Hs & He & Hf & Hc).
  unfold scratchTempDir, FilePath_ensureDirectory, scratchDir. rewrite <- Hs.
  rewrite <- !(exists_same_entries _ _ _ Hf), <- Hc.
  destruct (negb _ && _); [| by split].
  destruct (FilePath_exists (filesystem w1) _); [by split |].
  destruct (creatable (filesystem w1) _) eqn:Hcreate; cbn [negb fst snd].
  - split; [done |].
    unfold same_state, same_files.
    cbn [options scratchPath environment filesystem with_filesystem entries
         creatable].
    rewrite <- Hs, <- Hf. split_and!; try done. congruence.
  - split; [done |]. unfold same_state, same_files.
    cbn [options scratchPath environment filesystem with_filesystem].
    rewrite <- Hs. split_and!; try done. congruence.
Qed.

Lemma cleanUpScratchTempDir_same (w1 w2 : World) :
  same_state w1 w2 →
  same_state (cleanUpScratchTempDir w1) (cleanUpScratchTempDir w2).
Proof.
  intros (Ho & Hs & He & Hf & Hc).
  rewrite (cleanUpScratchTempDir_step w1), (cleanUpScratchTempDir_step w2).
  unfold scratchDir. rewrite <- Hs.
  rewrite <- !(exists_same_entries _ _ _ Hf), <- Hc, <- Hf.
  unfold same_state, same_files.
  cbn [options scratchPath environment filesystem with_filesystem entries creatable].
  by split_and!.
Qed.

(** One operation, run from two states that agree on all but the desktop
    frame, on two hosts that agree on what is asked of them: the results
    are the same and the states agree again, provided the two random
    sources agree if the operation draws. *)
Lemma run_same (op : Op) (random1 random2 : Z) (w1 w2 : World) :
  same_state w1 w2 →
  (draws_random op w1 = true → random1 = random2) →
  (run h1 op random1 w1).1 = (run h2 op random2 w2).1 ∧
  same_state (run h1 op random1 w1).2 (run h2 op random2 w2).2.
Proof.
  intros Hstate Hdraw.
  pose proof Hstate as (Ho & Hs & He & Hf & Hc).
  destruct op; cbn [run getter setter fst snd].
  - (* initFromCommandLine *)
    split; [done |]. unfold initFromCommandLine, same_state.
    cbn [options scratchPath environment filesystem with_options with_desktopInfo].
    rewrite <- Ho, (scanArguments_same h1 h2 Hhost). by split_and!.
  - split; [| done]. by rewrite <- Ho, (restoreMainWindowBounds_same h1 h2 Hhost).
  - split; [done |]. unfold same_state.
    cbn [options scratchPath environment filesystem with_options].
    rewrite <- Ho. by split_and!.
  - destruct (portNumber_same random1 random2 w1 w2 Hstate Hdraw) as [Hr Hw].
    destruct (portNumber h1 random1 w1), (portNumber h2 random2 w2).
    cbn [fst snd] in *. by rewrite Hr.
  - assert (Hstate' : same_state
                        (with_options (set_portNumber EmptyString (options w1)) w1)
                        (with_options (set_portNumber EmptyString (options w2)) w2)).
    { unfold same_state.
      cbn [options scratchPath environment filesystem with_options].
      rewrite <- Ho. by split_and!. }
    destruct (portNumber_same random1 random2 _ _ Hstate') as [Hr Hw].
    { intros _. by apply Hdraw. }
    unfold newPortNumber.
    destruct (portNumber h1 random1 _), (portNumber h2 random2 _).
    cbn [fst snd] in *. by rewrite Hr.
  - split; [by rewrite <- Ho | done].
  - split; [| done]. unfold desktopRenderingEngine.
    by rewrite <- Ho, (QVariant_toString_same h1 h2 Hhost).
  - split; [done |]. unfold same_state.
    cbn [options scratchPath environment filesystem with_options].
    rewrite <- Ho. by split_and!.
  - split; [| done]. by rewrite <- Ho, (proportionalFont_same h1 h2 Hhost).
  - split; [done |]. unfold same_state.
    cbn [options scratchPath environment filesystem with_options].
    rewrite <- Ho. by split_and!.
  - split; [| done]. by rewrite <- Ho, (fixedWidthFont_same h1 h2 Hhost).
  - split; [| done]. unfold zoomLevel.
    by rewrite <- Ho, (QVariant_toDouble_same h1 h2 Hhost).
  - split; [done |]. unfold setZoomLevel, same_state.
    cbn [options scratchPath environment filesystem with_options with_desktopInfo].
    rewrite <- Ho. by split_and!.
  - split; [| done]. unfold enableAccessibility.
    by rewrite <- Ho, (QVariant_toBool_same h1 h2 Hhost).
  - split; [done |]. unfold same_state.
    cbn [options scratchPath environment filesystem with_options].
    rewrite <- Ho. by split_and!.
  - split; [| done]. unfold clipboardMonitoring.
    by rewrite <- Ho, (QVariant_toBool_same h1 h2 Hhost).
  - split; [done |]. unfold same_state.
    cbn [options scratchPath environment filesystem with_options].
    rewrite <- Ho. by split_and!.
  - split; [| done]. unfold ignoreGpuBlacklist.
    by rewrite <- Ho, (QVariant_toBool_same h1 h2 Hhost).
  - split; [done |]. unfold same_state.
    cbn [options scratchPath environment filesystem with_options].
    rewrite <- Ho. by split_and!.
  - split; [| done]. unfold disableGpuDriverBugWorkarounds.
    by rewrite <- Ho, (QVariant_toBool_same h1 h2 Hhost).
  - split; [done |]. unfold same_state.
    cbn [options scratchPath environment filesystem with_options].
    rewrite <- Ho. by split_and!.
  - split; [| done]. unfold rBinDir.
    by rewrite <- Ho, (QVariant_toString_same h1 h2 Hhost).
  - split; [done |]. unfold same_state.
    cbn [options scratchPath environment filesystem with_options].
    rewrite <- Ho. by split_and!.
  - split; [by rewrite <- Ho | done].
  - split; [done |]. unfold same_state.
    cbn [options scratchPath environment filesystem with_options].
    rewrite <- Ho. by split_and!.
  - unfold cached. rewrite <- Ho, (executablePath_same h1 h2 Hhost).
    destruct (executablePath h2 (options w1)). by split.
  - unfold cached. rewrite <- Ho, (supportingFilePath_same h1 h2 Hhost _ _ _ Hf).
    destruct (supportingFilePath h2 _ (options w1)). by split.
  - unfold cached. rewrite <- Ho, (resourcesPath_same h1 h2 Hhost _ _ _ Hf).
    destruct (resourcesPath h2 _ (options w1)). by split.
  - unfold cached. rewrite <- Ho, (wwwDocsPath_same h1 h2 Hhost _ _ _ Hf).
    destruct (wwwDocsPath h2 _ (options w1)). by split.
  - split; [by rewrite <- Ho | done].
  - split; [by rewrite <- Ho | done].
  - split; [| done]. unfold ignoredUpdateVersions.
    by rewrite <- Ho, (QVariant_toStringList_same h1 h2 Hhost).
  - split; [done |]. unfold same_state.
    cbn [options scratchPath environment filesystem with_options].
    rewrite <- Ho. by split_and!.
  - destruct (scratchTempDir_same defaultPath w1 w2 Hstate) as [Hr Hw].
    destruct (scratchTempDir defaultPath w1), (scratchTempDir defaultPath w2).
    cbn [fst snd] in *. by rewrite Hr.
  - split; [done |]. by apply cleanUpScratchTempDir_same.
Qed.

End SameRun.

Section SameRuns.

Context (h1 h2 : Host) (Hhost : same_host h1 h2).

Lemma run_all_same (ops : list Op) (draws1 draws2 : nat → Z) (w1 w2 : World) :
  same_state w1 w2 →
  same_draws h1 ops draws1 draws2 w1 →
  (run_all h1 ops draws1 w1).1 = (run_all h2 ops draws2 w2).1 ∧
  same_state (run_all h1 ops draws1 w1).2 (run_all h2 ops draws2 w2).2.
Proof.
  revert draws1 draws2 w1 w2.
  induction ops as [|op rest IH]; intros draws1 draws2 w1 w2 Hstate Hdraws;
    [by split |].
  cbn [run_all same_draws] in *. destruct Hdraws as [Hdraw Hrest].
  destruct (run_same h1 h2 Hhost op (draws1 0%nat) (draws2 0%nat) w1 w2 Hstate Hdraw)
    as [Hresult Hstate'].
  destruct (run h1 op (draws1 0%nat) w1) as [result1 w1'].
  destruct (run h2 op (draws2 0%nat) w2) as [result2 w2'].
  cbn [fst snd] in *.
  destruct (IH _ _ w1' w2' Hstate' Hrest) as [Hresults Hfinal].
  destruct (run_all h1 rest _ w1') as [results1 w1''].
  destruct (run_all h2 rest _ w2') as [results2 w2''].
  cbn [fst snd] in *. by rewrite Hresult, Hresults.
Qed.


End SameRuns.


Example runs_from_different_frames :
  (run_all (host_linux [])
           [OpZoomLevel; OpNewPortNumber; OpPortNumber]
           (λ _, 7)
           (start settings_saved ∅ EmptyString (mkFileSystem ∅ (λ _, true))
                  (mkDesktopInfo 1%float))).1
    = [RDouble 2%float; RString "8087"; RString "8087"].
Proof. reflexivity. Qed.
